(** * Keyword-spotting search (main.py): a shallow embedding

    The Python program reads a time-aligned transcript (CTM), reads a
    list of query phrases, and slides every phrase over the transcript.
    This file embeds [parse_ctm], the per-[kw] body of [parse_queries]
    and [perform_kws_search], then the two writers and [main], and
    proves properties of them.

    Conventions of the embedding:
    - a Python [float] read from the transcript is a finite number and is
      idealised as an exact rational ([Q]); the only NaN the program
      manufactures itself (the first entry of [Series.diff]) is modelled
      with [option Q].  This serves the properties that do not hang on
      rounding.  Those that do (a difference of start times compared
      with 0.5, the value of a score) are proved on a second embedding
      of the search, [F64], on binary64 values;
    - a Python exception is a value of [exn]; code that may raise lives
      in the [result] monad;
    - a [pandas.DataFrame] of transcript rows is a list of rows together
      with a flag telling whether it has columns at all
      ([pd.DataFrame([])] has none);
    - the text file is the list of its lines, in order. *)

From Stdlib Require Import List String Ascii Bool Arith ZArith QArith Qminmax Qabs.
From Stdlib Require Import Lia Lqa Sorted.
From Stdlib Require Import Floats.SpecFloat.
From Stdlib Require Import Permutation OrderedTypeEx.
Import ListNotations.

Local Close Scope Q_scope.
Local Open Scope string_scope.
Local Open Scope list_scope.

(** ** Exceptions and the result monad *)

Inductive exn : Type :=
| ValueError
| KeyError
| IndexError
| AttributeError.

Inductive result (A : Type) : Type :=
| Ok (a : A)
| Raise (e : exn).

Arguments Ok {A} a.
Arguments Raise {A} e.

Definition bind {A B : Type} (m : result A) (k : A -> result B) : result B :=
  match m with
  | Ok a => k a
  | Raise e => Raise e
  end.

Notation "x <- m ;; k" := (bind m (fun x => k))
  (at level 61, m at next level, right associativity).

(** [for x in xs: body] over a mutable accumulator [s]. *)
Fixpoint for_each {A S : Type} (body : S -> A -> result S) (xs : list A) (s : S)
  : result S :=
  match xs with
  | [] => Ok s
  | x :: xs' => s' <- body s x ;; for_each body xs' s'
  end.

(** ** Python built-ins used by the program *)

Module Py.

(** [str.isspace] on one character (code points below 256). *)
Definition isspace (c : ascii) : bool :=
  let n := nat_of_ascii c in
  (((9 <=? n) && (n <=? 13)) || ((28 <=? n) && (n <=? 32))
   || (n =? 133) || (n =? 160))%nat.

Fixpoint lstrip (s : string) : string :=
  match s with
  | EmptyString => EmptyString
  | String c s' => if isspace c then lstrip s' else s
  end.

(** Drops trailing white space: a character is kept when it is not a
    space or when something is kept after it. *)
Fixpoint rstrip (s : string) : string :=
  match s with
  | EmptyString => EmptyString
  | String c s' =>
      match rstrip s' with
      | EmptyString => if isspace c then EmptyString else String c EmptyString
      | t => String c t
      end
  end.

(** [s.strip()] *)
Definition strip (s : string) : string := rstrip (lstrip s).

(** [s.split()] with no separator: maximal runs of non-space characters.
    [cur] is the run being read, if any. *)
Fixpoint split_from (cur : option string) (s : string) : list string :=
  match s with
  | EmptyString =>
      match cur with
      | Some w => [w]
      | None => []
      end
  | String c s' =>
      if isspace c then
        match cur with
        | Some w => w :: split_from None s'
        | None => split_from None s'
        end
      else
        match cur with
        | Some w => split_from (Some (String.append w (String c EmptyString))) s'
        | None => split_from (Some (String c EmptyString)) s'
        end
  end.

Definition split (s : string) : list string := split_from None s.

(** [range(n)]: empty when [n <= 0]. *)
Definition range (n : Z) : list nat := seq 0 (Z.to_nat n).

(** [a == b] on lists of strings. *)
Definition list_eqb (a b : list string) : bool :=
  if list_eq_dec string_dec a b then true else false.

End Py.

(** ** Records of the data model *)

Record WordOccurrence : Type := mkWord {
  file_id : string;
  channel : string;
  start_time : Q;
  duration : Q;
  word : string;
  confidence : Q
}.

Record Query : Type := mkQuery {
  kwid : string;
  phrase : string;
  words : list string
}.

Record Hit : Type := mkHit {
  hit_kwid : string;
  hit_file_id : string;
  hit_channel : string;
  hit_start_time : Q;
  hit_duration : Q;
  hit_score : Q;
  hit_decision : string
}.

(** ** The part of pandas the program uses *)

Module Pandas.

Record DataFrame : Type := mkDF {
  has_columns : bool;
  rows : list WordOccurrence
}.

(** [pd.DataFrame(records)]: the columns are the keys of the records,
    so an empty list gives a frame without columns. *)
Definition of_records (l : list WordOccurrence) : DataFrame :=
  {| has_columns := negb (Nat.eqb (List.length l) 0); rows := l |}.

(** [len(df)] *)
Definition len (df : DataFrame) : nat := List.length (rows df).

(** [df.iloc[a:b]] for [0 <= a]; out-of-range bounds are clipped. *)
Definition iloc_slice (df : DataFrame) (a b : nat) : DataFrame :=
  {| has_columns := has_columns df;
     rows := firstn (b - a) (skipn a (rows df)) |}.

(** [df[name]] as the list of the column's values. *)
Definition column {A : Type} (f : WordOccurrence -> A) (df : DataFrame)
  : result (list A) :=
  if has_columns df then Ok (map f (rows df)) else Raise KeyError.

(** [df.iloc[0]] *)
Definition iloc_first (df : DataFrame) : result WordOccurrence :=
  match rows df with
  | r :: _ => Ok r
  | [] => Raise IndexError
  end.

(** [df.iloc[-1]] *)
Definition iloc_last (df : DataFrame) : result WordOccurrence :=
  match rev (rows df) with
  | r :: _ => Ok r
  | [] => Raise IndexError
  end.

(** [Series.diff()]: NaN first, then each value minus its predecessor. *)
Fixpoint diff_from (prev : Q) (l : list Q) : list (option Q) :=
  match l with
  | [] => []
  | x :: l' => Some (x - prev)%Q :: diff_from x l'
  end.

Definition diff (l : list Q) : list (option Q) :=
  match l with
  | [] => []
  | x :: l' => None :: diff_from x l'
  end.

(** [Series.fillna(v)] *)
Definition fillna (v : Q) (l : list (option Q)) : list Q :=
  map (fun o => match o with Some x => x | None => v end) l.

Definition sum (l : list Q) : Q := fold_left Qplus l 0%Q.

(** [Series.mean()] of a non-empty series: the sum over the count,
    in exact arithmetic.  (On an empty series pandas answers NaN; the
    program never gets there, [iloc_first] raises before.  On doubles
    the sum is rounded, see [F64].) *)
Definition mean (l : list Q) : Q :=
  (sum l / inject_Z (Z.of_nat (List.length l)))%Q.

End Pandas.

Import Pandas.

(** ** The program *)

Section ParseCtm.

(** Python's [float(s)] on a field of the transcript, as far as it
    answers a finite number: [None] stands for the [ValueError] it
    raises on text that is not a number. *)
Variable float : string -> option Q.

Definition to_float (s : string) : result Q :=
  match float s with
  | Some x => Ok x
  | None => Raise ValueError
  end.

(** Body of the loop over the lines of the file; [index] is the list
    being appended to. *)
Definition parse_ctm_line (index : list WordOccurrence) (line : string)
  : result (list WordOccurrence) :=
  let parts := Py.split (Py.strip line) in
  if (List.length parts <? 6)%nat then Ok index (* continue *)
  else
    match firstn 6 parts with
    | [f; c; st; du; w; co] =>
        st' <- to_float st ;;
        du' <- to_float du ;;
        co' <- to_float co ;;
        Ok (index ++ [mkWord f c st' du' w co'])
    | _ => Raise ValueError (* unpacking; a slice [:6] of >= 6 parts has 6 *)
    end.

Definition parse_ctm (lines : list string) : result DataFrame :=
  index <- for_each parse_ctm_line lines [] ;;
  Ok (of_records index).

End ParseCtm.

(** A [kw] element of the query file: its [kwid] attribute and the text
    of its [kwtext] child.  The text is [None] when the child is empty
    or missing; in both cases the program fails on an attribute of
    [None]. *)
Record KwElement : Type := mkKw {
  kw_kwid : string;
  kw_kwtext : option string
}.

Definition parse_queries_kw (queries : list Query) (kw : KwElement)
  : result (list Query) :=
  match kw_kwtext kw with
  | None => Raise AttributeError
  | Some text =>
      let phrase := Py.strip text in
      Ok (queries ++ [mkQuery (kw_kwid kw) phrase (Py.split phrase)])
  end.

Definition parse_queries (kws : list KwElement) : result (list Query) :=
  for_each parse_queries_kw kws [].

(** [all(time_diffs[1:] <= 0.5)] where
    [time_diffs = segment['start_time'].diff().fillna(0)], the
    differences taken exactly.  ([F64.time_ok] takes them as the
    program does, rounded to a double.) *)
Definition time_diffs (sts : list Q) : list Q := fillna 0%Q (diff sts).

Definition time_ok (sts : list Q) : bool :=
  forallb (fun d => Qle_bool d 0.5%Q) (skipn 1 (time_diffs sts)).

(** Body of the inner loop, at offset [i].  The program reads
    [segment.iloc[0]] three times (for the start time, the file and the
    channel); so does the model. *)
Definition search_window (index_df : DataFrame) (query : Query)
  (hits : list Hit) (i : nat) : result (list Hit) :=
  let num_words := List.length (words query) in
  let segment := iloc_slice index_df i (i + num_words) in
  ws <- column word segment ;;
  if Py.list_eqb ws (words query) then
    sts <- column start_time segment ;;
    if time_ok sts then
      first <- iloc_first segment ;;
      let start := start_time first in
      last <- iloc_last segment ;;
      let end_time := (start_time last + duration last)%Q in
      let dur := (end_time - start)%Q in
      confs <- column confidence segment ;;
      let conf := mean confs in
      first' <- iloc_first segment ;;
      first'' <- iloc_first segment ;;
      Ok (hits ++ [mkHit (kwid query) (file_id first') (channel first'')
                         start dur conf "YES"])
    else Ok hits
  else Ok hits.

(** Body of the outer loop, for one query. *)
Definition search_query (index_df : DataFrame) (hits : list Hit) (query : Query)
  : result (list Hit) :=
  let num_words := List.length (words query) in
  for_each (search_window index_df query)
    (Py.range (Z.of_nat (len index_df) - Z.of_nat num_words + 1)) hits.

Definition perform_kws_search (index_df : DataFrame) (queries_df : list Query)
  : result (list Hit) :=
  for_each (search_query index_df) queries_df [].

(** A stand-in for [float] on the finite decimal literals a transcript
    holds: an optional sign, digits with an optional point, and an
    optional exponent ([12], [0.25], [-3.], [.5], [1e-3]).  It answers
    [None] on everything else.  (Python also reads digit groups joined
    by underscores and the names of the infinities and of NaN, which
    have no value in [Q].)  It is used to run [parse_ctm] on concrete
    files; the theorems about [parse_ctm] hold for any [float]. *)
Module Decimal.

Definition digit (c : ascii) : option Z :=
  let n := nat_of_ascii c in
  if ((48 <=? n) && (n <=? 57))%nat then Some (Z.of_nat (n - 48)) else None.

(** Reads the longest run of digits at the head of [s] into [acc];
    answers the number read, how many digits it had, and the rest. *)
Fixpoint read_digits (acc : Z) (count : nat) (s : string) : Z * nat * string :=
  match s with
  | EmptyString => (acc, count, s)
  | String c s' =>
      match digit c with
      | Some d => read_digits (10 * acc + d)%Z (S count) s'
      | None => (acc, count, s)
      end
  end.

Definition read_sign (s : string) : bool * string :=
  match s with
  | String "-"%char s' => (true, s')
  | String "+"%char s' => (false, s')
  | _ => (false, s)
  end.

(** [m * 10 ^ e] *)
Definition scale (m e : Z) : Q :=
  if (0 <=? e)%Z then Qmake (m * 10 ^ e)%Z 1
  else Qmake m (Z.to_pos (10 ^ (- e))).

Definition float (s : string) : option Q :=
  let '(neg, s1) := read_sign s in
  let '(int_part, n1, s2) := read_digits 0%Z 0%nat s1 in
  let '(num, n2, s3) :=
    match s2 with
    | String "."%char t => read_digits int_part 0%nat t
    | _ => (int_part, 0%nat, s2)
    end in
  let m := if neg then (- num)%Z else num in
  if (n1 + n2 =? 0)%nat then None
  else
    match s3 with
    | EmptyString => Some (scale m (- Z.of_nat n2))
    | String c t =>
        if (Ascii.eqb c "e"%char || Ascii.eqb c "E"%char)%bool then
          let '(eneg, t1) := read_sign t in
          let '(ev, n3, t2) := read_digits 0%Z 0%nat t1 in
          let e := if eneg then (- ev)%Z else ev in
          match n3, t2 with
          | S _, EmptyString => Some (scale m (e - Z.of_nat n2))
          | _, _ => None
          end
        else None
    end.

End Decimal.

(** ** Concrete inputs *)

(** Scenario A of the specification. *)
Definition scenario_A_ref : list WordOccurrence :=
  [ mkWord "f1" "1" 0.0%Q 0.2%Q "go" 0.9%Q;
    mkWord "f1" "1" 0.3%Q 0.2%Q "home" 0.8%Q ].

Definition scenario_A_kw : KwElement := mkKw "K1" (Some "go home").

Definition scenario_A_query : Query := mkQuery "K1" "go home" ["go"; "home"].

Definition scenario_A_hit : Hit :=
  mkHit "K1" "f1" "1" 0.0%Q (0.3 + 0.2 - 0.0)%Q (mean [0.9%Q; 0.8%Q]) "YES".

(** The two records of scenario A, the later one first. *)
Definition unsorted_ref : list WordOccurrence :=
  [ mkWord "f1" "1" 1.0%Q 0.2%Q "go" 0.9%Q;
    mkWord "f1" "1" 0.0%Q 0.2%Q "home" 0.8%Q ].

(** The end of one file followed by the start of the next. *)
Definition two_files_ref : list WordOccurrence :=
  [ mkWord "f1" "1" 9.8%Q 0.2%Q "go" 0.9%Q;
    mkWord "f2" "2" 0.0%Q 0.2%Q "home" 0.8%Q ].

(** A [kw] whose text is only white space, and the query it loads as. *)
Definition blank_kw : KwElement := mkKw "K2" (Some "   ").

Definition blank_query : Query := mkQuery "K2" "" [].

Definition one_word_ref : list WordOccurrence :=
  [ mkWord "f1" "1" 0.0%Q 0.2%Q "go" 0.9%Q ].

(** A word said three times in a row, and the query for it twice. *)
Definition repeated_ref : list WordOccurrence :=
  [ mkWord "f1" "1" 0.0%Q 0.2%Q "no" 0.9%Q;
    mkWord "f1" "1" 0.3%Q 0.2%Q "no" 0.8%Q;
    mkWord "f1" "1" 0.6%Q 0.2%Q "no" 0.7%Q ].

Definition repeated_query : Query := mkQuery "K3" "no no" ["no"; "no"].

(** Scenario D: two records among three malformed lines. *)
Definition scenario_D_lines : list string :=
  [ "header";
    "f1 1 0.0 0.2 go 0.9";
    "";
    "f1 1 0.3 0.2 home 0.8 trailing fields";
    "f1 1 0.5 0.2 away" ].

(** A six-field line whose start time is not a number. *)
Definition bad_number_lines : list string :=
  [ "f1 1 0.0 0.2 go 0.9";
    "f1 1 abc 0.2 home 0.8" ].

(** Scenario B: a phrase one of whose words is never said. *)
Definition scenario_B_query : Query := mkQuery "K1" "go work" ["go"; "work"].

(** ** IEEE doubles, for one concrete check

    The development computes with exact rationals.  This module gives
    the sums of scenario A as Python computes them, on binary64 values
    with round-to-nearest-even, to show how far the two are apart. *)
Module Binary64.

Definition prec : Z := 53%Z.
Definition emax : Z := 1024%Z.

Definition of_pos (p : positive) : spec_float :=
  binary_normalize prec emax (Zpos p) 0%Z false.

Definition add : spec_float -> spec_float -> spec_float := SFadd prec emax.
Definition sub : spec_float -> spec_float -> spec_float := SFsub prec emax.
Definition div : spec_float -> spec_float -> spec_float := SFdiv prec emax.

(** The double a decimal literal [n/d] denotes: the quotient, rounded
    once. *)
Definition literal (n d : positive) : spec_float := div (of_pos n) (of_pos d).

(** [Series.mean()] of two values: their sum over the count. *)
Definition mean2 (a b : spec_float) : spec_float := div (add a b) (of_pos 2).

End Binary64.

(** ** Specification-level vocabulary

    These definitions follow the words of the specification; the theorems
    below compare them with the program above. *)

(** The window of [L] consecutive records that starts at offset [i]. *)
Definition window (ref : list WordOccurrence) (i L : nat) : list WordOccurrence :=
  firstn L (skipn i ref).

(** Token match: the word of the [k]-th record of the window is the
    [k]-th token of the phrase. *)
Definition tokens_match (ref : list WordOccurrence) (ws : list string) (i : nat)
  : Prop :=
  forall k r, (k < List.length ws)%nat ->
    nth_error ref (i + k) = Some r -> nth_error ws k = Some (word r).

(** Temporal contiguity: each of the [L-1] successive differences of
    start times inside the window is at most half a second. *)
Definition starts_close (ref : list WordOccurrence) (L i : nat) : Prop :=
  forall k a b, (S k < L)%nat ->
    nth_error ref (i + k) = Some a -> nth_error ref (i + S k) = Some b ->
    (start_time b - start_time a <= 0.5)%Q.

(** Offset [i] is a qualifying start offset for the phrase [ws]. *)
Definition qualifies (ref : list WordOccurrence) (ws : list string) (i : nat)
  : Prop :=
  (i + List.length ws <= List.length ref)%nat
  /\ tokens_match ref ws i
  /\ starts_close ref (List.length ws) i.

(** The hit reported for a non-empty window [first :: rest]. *)
Definition hit_of (q : Query) (first : WordOccurrence) (rest : list WordOccurrence)
  : Hit :=
  let lst := List.last rest first in
  mkHit (kwid q) (file_id first) (channel first) (start_time first)
        (start_time lst + duration lst - start_time first)%Q
        (mean (map confidence (first :: rest))) "YES".

(** The hit reported for the window of query [q] at offset [i]; there is
    none when the window is empty. *)
Definition hit_at (ref : list WordOccurrence) (q : Query) (i : nat) : option Hit :=
  match window ref i (List.length (words q)) with
  | first :: rest => Some (hit_of q first rest)
  | [] => None
  end.

Definition option_list {A : Type} (o : option A) : list A :=
  match o with
  | Some a => [a]
  | None => []
  end.

(** The check the program makes on a window, as a boolean. *)
Definition window_ok (q : Query) (seg : list WordOccurrence) : bool :=
  Py.list_eqb (map word seg) (words q) && time_ok (map start_time seg).

(** The offsets the program visits for [q] and accepts, in order. *)
Definition qualifying_offsets (ref : list WordOccurrence) (q : Query) : list nat :=
  filter (fun i => window_ok q (window ref i (List.length (words q))))
    (Py.range (Z.of_nat (List.length ref) - Z.of_nat (List.length (words q)) + 1)).

(** The hits of one query, in order of offset. *)
Definition query_hits (ref : list WordOccurrence) (q : Query) : list Hit :=
  flat_map (fun i => option_list (hit_at ref q i)) (qualifying_offsets ref q).

(** The reference is in order of start time: no record starts before
    its predecessor in the sequence. *)
Definition starts_sorted (ref : list WordOccurrence) : Prop :=
  Sorted (fun a b => (start_time a <= start_time b)%Q) ref.

(** The fields of a line of the transcript. *)
Definition fields (line : string) : list string := Py.split (Py.strip line).

(** The third, fourth and sixth field of a line are numbers. *)
Definition numbers_parse (float : string -> option Q) (parts : list string) : Prop :=
  float (nth 2 parts "") <> None
  /\ float (nth 3 parts "") <> None
  /\ float (nth 5 parts "") <> None.

(** One of the third, fourth and sixth field is not a number. *)
Definition number_fails (float : string -> option Q) (parts : list string) : Prop :=
  float (nth 2 parts "") = None
  \/ float (nth 3 parts "") = None
  \/ float (nth 5 parts "") = None.

(** Record [r] is made of the first six fields of a line. *)
Definition record_of_fields (float : string -> option Q) (parts : list string)
  (r : WordOccurrence) : Prop :=
  file_id r = nth 0 parts ""
  /\ channel r = nth 1 parts ""
  /\ float (nth 2 parts "") = Some (start_time r)
  /\ float (nth 3 parts "") = Some (duration r)
  /\ word r = nth 4 parts ""
  /\ float (nth 5 parts "") = Some (confidence r).

(** The lines that carry a record: those with at least six fields. *)
Definition record_lines (lines : list string) : list (list string) :=
  filter (fun parts => (6 <=? List.length parts)%nat) (map fields lines).


(** ** Tokens

    What [split] returns: strings that are not empty and hold no white
    space. *)
Fixpoint no_space (s : string) : bool :=
  match s with
  | EmptyString => true
  | String c s' => negb (Py.isspace c) && no_space s'
  end.

Definition is_token (s : string) : bool :=
  match s with
  | EmptyString => false
  | String _ _ => no_space s
  end.

Fixpoint all_space (s : string) : bool :=
  match s with
  | EmptyString => true
  | String c s' => Py.isspace c && all_space s'
  end.

(** The strings of a record are tokens. *)
Definition token_record (r : WordOccurrence) : Prop :=
  is_token (file_id r) = true
  /\ is_token (channel r) = true
  /\ is_token (word r) = true.

(** What [parse_queries] makes of the [kw] element [kw]. *)
Definition loaded_as (kw : KwElement) (q : Query) : Prop :=
  kwid q = kw_kwid kw
  /\ exists text,
       kw_kwtext kw = Some text
       /\ phrase q = Py.strip text
       /\ words q = Py.split text
       /\ Forall (fun w => is_token w = true) (words q)
       /\ (words q = [] <-> all_space text = true).

(** * The writers and [main]

    Opening the input and output files is taken to succeed, and the
    query file to be well-formed XML; what is printed is left out.  The
    XML file is modelled by the element tree handed to
    [ElementTree.write].

    ** The frame of hits

    [perform_kws_search] hands its list of hits to [pd.DataFrame]; like
    the frame of the transcript, the frame of an empty list has no
    columns. *)
Record HitsFrame : Type := mkHitsFrame {
  hits_has_columns : bool;
  hits_rows : list Hit
}.

Definition hits_frame (hits : list Hit) : HitsFrame :=
  {| hits_has_columns := negb (Nat.eqb (List.length hits) 0);
     hits_rows := hits |}.

(** [hits_df.groupby("kwid")], iterated: the distinct keys in ascending
    order (strings compare by code point, a proper prefix first), each
    with its rows in their original order.  A frame without columns has
    no such key. *)
Fixpoint insert_key (k : string) (ks : list string) : list string :=
  match ks with
  | [] => [k]
  | x :: ks' =>
      match String.compare k x with
      | Lt => k :: ks
      | Eq => ks
      | Gt => x :: insert_key k ks'
      end
  end.

Definition sorted_keys (l : list string) : list string :=
  fold_right insert_key [] l.

Definition group_of (hits : list Hit) (k : string) : list Hit :=
  filter (fun h => String.eqb (hit_kwid h) k) hits.

Definition groupby_kwid (hits_df : HitsFrame)
  : result (list (string * list Hit)) :=
  if hits_has_columns hits_df then
    Ok (map (fun k => (k, group_of (hits_rows hits_df) k))
          (sorted_keys (map hit_kwid (hits_rows hits_df))))
  else Raise KeyError.

(** ** Element trees

    [xml.etree.ElementTree.Element]: a tag, the attributes in the order
    they were given, the text, and the children in the order they were
    appended. *)
#[warnings="-register-all"]
Inductive Element : Type :=
| mkElement (tag : string) (attrib : list (string * string))
    (text : option string) (children : list Element).

Definition tag_of (e : Element) : string :=
  match e with mkElement t _ _ _ => t end.

Definition attrib_of (e : Element) : list (string * string) :=
  match e with mkElement _ a _ _ => a end.

Definition text_of (e : Element) : option string :=
  match e with mkElement _ _ x _ => x end.

Definition children_of (e : Element) : list Element :=
  match e with mkElement _ _ _ c => c end.

(** [d.get(key)] on the attributes. *)
Fixpoint attrib_get (key : string) (a : list (string * string)) : option string :=
  match a with
  | [] => None
  | (k, v) :: a' => if String.eqb k key then Some v else attrib_get key a'
  end.

(** What [main] leaves on disk: the lines written to the CTM file and
    the tree written to the XML file, each [None] until it is written. *)
Record Files : Type := mkFiles {
  output_ctm : option (list string);
  output_xml : option Element
}.

Definition no_files : Files := {| output_ctm := None; output_xml := None |}.

(** Code that writes files and may raise. *)
Definition io (A : Type) : Type := Files -> Files * result A.

Definition io_bind {A B : Type} (m : io A) (k : A -> io B) : io B :=
  fun fs =>
    match m fs with
    | (fs', Ok a) => k a fs'
    | (fs', Raise e) => (fs', Raise e)
    end.

Definition io_lift {A : Type} (r : result A) : io A := fun fs => (fs, r).

Notation "x <~ m ;; k" := (io_bind m (fun x => k))
  (at level 61, m at next level, right associativity).

Definition newline : string := String (ascii_of_nat 10) EmptyString.

Section Writers.

(** [f"{x:.2f}"] and [f"{x:.6f}"] on a float, and [str(x)]. *)
Variable fmt2 : Q -> string.
Variable fmt6 : Q -> string.
Variable str_float : Q -> string.

(** The string [save_hits_to_ctm] writes for one hit. *)
Definition ctm_line (hit : Hit) : string :=
  String.append (hit_file_id hit) (String.append " "
  (String.append (hit_channel hit) (String.append " "
  (String.append (fmt2 (hit_start_time hit)) (String.append " "
  (String.append (fmt2 (hit_duration hit)) (String.append " "
  (String.append (hit_kwid hit) (String.append " "
  (String.append (fmt6 (hit_score hit)) newline)))))))))).

(** All that is written to the file, row after row. *)
Definition ctm_lines (hits_df : HitsFrame) : list string :=
  map ctm_line (hits_rows hits_df).

(** Opening the file for writing creates it, so it exists (empty) even
    when there is no row. *)
Definition save_hits_to_ctm (hits_df : HitsFrame) : io unit :=
  fun fs =>
    ({| output_ctm := Some (ctm_lines hits_df); output_xml := output_xml fs |},
     Ok tt).

Definition leaf (tag text : string) : Element :=
  mkElement tag [] (Some text) [].

(** The [kw] element of one hit. *)
Definition kw_element (hit : Hit) : Element :=
  mkElement "kw"
    [("file", hit_file_id hit); ("channel", hit_channel hit)] None
    [ leaf "tbeg" (str_float (hit_start_time hit));
      leaf "dur" (str_float (hit_duration hit));
      leaf "score" (str_float (hit_score hit));
      leaf "decision" (hit_decision hit) ].

(** The [detected_kwlist] element of one group. *)
Definition detected_kwlist (group : string * list Hit) : Element :=
  mkElement "detected_kwlist"
    [("kwid", fst group); ("oov_count", "0"); ("search_time", "0.0")] None
    (map kw_element (snd group)).

(** The tree [save_hits_to_xml] builds. *)
Definition xml_tree (hits_df : HitsFrame) (kwlist_filename language : string)
  : result Element :=
  grouped_hits <- groupby_kwid hits_df ;;
  Ok (mkElement "kwslist"
        [("kwlist_filename", kwlist_filename); ("language", language);
         ("system_id", "")] None
        (map detected_kwlist grouped_hits)).

Definition save_hits_to_xml (hits_df : HitsFrame)
  (kwlist_filename language : string) : io unit :=
  fun fs =>
    match xml_tree hits_df kwlist_filename language with
    | Ok root =>
        ({| output_ctm := output_ctm fs; output_xml := Some root |}, Ok tt)
    | Raise e => (fs, Raise e)
    end.

Definition default_kwlist_filename : string :=
  "IARPA-babel202b-v1.0d_conv-dev.kwlist.xml".

Definition default_language : string := "swahili".

Variable float : string -> option Q.

(** [main], on the lines of the transcript and the [kw] elements of the
    query file. *)
Definition main (ctm_file : list string) (query_file : list KwElement)
  : io unit :=
  index_df <~ io_lift (parse_ctm float ctm_file) ;;
  queries_df <~ io_lift (parse_queries query_file) ;;
  hits <~ io_lift (perform_kws_search index_df queries_df) ;;
  let hits_df := hits_frame hits in
  _ <~ save_hits_to_ctm hits_df ;;
  save_hits_to_xml hits_df default_kwlist_filename default_language.

End Writers.

(** The six fields of the line written for a hit. *)
Definition ctm_fields (fmt2 fmt6 : Q -> string) (hit : Hit) : list string :=
  [ hit_file_id hit; hit_channel hit; fmt2 (hit_start_time hit);
    fmt2 (hit_duration hit); hit_kwid hit; fmt6 (hit_score hit) ].

(** The hit can be written as one line of six fields: its strings and
    its formatted numbers are tokens. *)
Definition writable (fmt2 fmt6 : Q -> string) (hit : Hit) : Prop :=
  Forall (fun t => is_token t = true) (ctm_fields fmt2 fmt6 hit).

(** [float] reads the formatted numbers of the hit. *)
Definition readable (float : string -> option Q) (fmt2 fmt6 : Q -> string)
  (hit : Hit) : Prop :=
  float (fmt2 (hit_start_time hit)) <> None
  /\ float (fmt2 (hit_duration hit)) <> None
  /\ float (fmt6 (hit_score hit)) <> None.

(** Record [r] is what the line of [hit] reads back as. *)
Definition read_back (float : string -> option Q) (fmt2 fmt6 : Q -> string)
  (hit : Hit) (r : WordOccurrence) : Prop :=
  file_id r = hit_file_id hit
  /\ channel r = hit_channel hit
  /\ word r = hit_kwid hit
  /\ float (fmt2 (hit_start_time hit)) = Some (start_time r)
  /\ float (fmt2 (hit_duration hit)) = Some (duration r)
  /\ float (fmt6 (hit_score hit)) = Some (confidence r).

(** Loading and searching, the part of [main] before anything is
    written. *)
Definition load_and_search (float : string -> option Q) (ctm_file : list string)
  (query_file : list KwElement) : result (list Hit) :=
  index_df <- parse_ctm float ctm_file ;;
  queries_df <- parse_queries query_file ;;
  perform_kws_search index_df queries_df.

(** [a < b] on strings. *)
Definition string_lt (a b : string) : Prop := String.compare a b = Lt.

(** Hits of three queries, not in order of kwid. *)
Definition mixed_hits : list Hit :=
  [ mkHit "K2" "f1" "1" 0.0%Q 0.5%Q 0.9%Q "YES";
    mkHit "K1" "f1" "1" 1.0%Q 0.5%Q 0.8%Q "YES";
    mkHit "K2" "f2" "1" 2.0%Q 0.5%Q 0.7%Q "YES";
    mkHit "K10" "f2" "1" 3.0%Q 0.5%Q 0.6%Q "YES" ].

(** A stand-in for the fixed-point formats: the exact value rounded to
    the given number of decimals, ties to the even digit, which is what
    Python prints for the exact value of a double.  (A decimal such as
    12.345 is not a double; Python prints the rounding of the double
    next to it.)  It is used to run the writers on concrete hits, also
    where a run needs some [str] of a float; the theorems about them
    hold for any formats. *)
Module Fixed.

Definition digit_char (d : Z) : ascii := ascii_of_nat (48 + Z.to_nat d).

(** The last [k] decimal digits of [n], most significant first. *)
Fixpoint digits (k : nat) (n : Z) : string :=
  match k with
  | O => EmptyString
  | S k' => String.append (digits k' (n / 10)%Z)
              (String (digit_char (n mod 10)%Z) EmptyString)
  end.

Fixpoint drop_zeros (s : string) : string :=
  match s with
  | String "0"%char (String _ _ as s') => drop_zeros s'
  | _ => s
  end.

(** [n >= 0] in decimal. *)
Definition natural (n : Z) : string :=
  drop_zeros (digits (S (Z.to_nat (Z.log2 n))) n).

Definition round_half_even (q : Q) : Z :=
  let n := Qnum q in
  let d := Zpos (Qden q) in
  let f := (n / d)%Z in
  match (2 * (n mod d) ?= d)%Z with
  | Lt => f
  | Gt => (f + 1)%Z
  | Eq => if Z.even f then f else (f + 1)%Z
  end.

Definition format (places : nat) (q : Q) : string :=
  let unit := (10 ^ Z.of_nat places)%Z in
  let scaled := round_half_even (Qabs q * inject_Z unit)%Q in
  String.append (if Qlt_le_dec q 0 then "-" else "")
    (String.append (natural (scaled / unit)%Z)
       (match places with
        | O => EmptyString
        | _ => String.append "." (digits places (scaled mod unit)%Z)
        end)).

End Fixed.

(** * The search on doubles

    The definitions above compute with exact rationals.  Where a
    property hangs on how the program rounds (the comparison of a
    difference of start times with 0.5, the value of a score), the
    search is embedded a second time, below, on binary64 values with
    the operations of IEEE arithmetic, rounding to nearest, ties to
    even.  The text of the program is the same; only the numbers
    differ. *)
Module F64.

Definition double : Type := spec_float.

Definition zero : double := S754_zero false.

(** The literal [0.5]. *)
Definition half : double := Binary64.literal 1 2.

Definition is_nan (x : double) : bool :=
  match x with
  | S754_nan => true
  | _ => false
  end.


Record WordOccurrence : Type := mkWord {
  file_id : string;
  channel : string;
  start_time : double;
  duration : double;
  word : string;
  confidence : double
}.

Record Hit : Type := mkHit {
  hit_kwid : string;
  hit_file_id : string;
  hit_channel : string;
  hit_start_time : double;
  hit_duration : double;
  hit_score : double;
  hit_decision : string
}.

Record DataFrame : Type := mkDF {
  has_columns : bool;
  rows : list WordOccurrence
}.

Definition of_records (l : list WordOccurrence) : DataFrame :=
  {| has_columns := negb (Nat.eqb (List.length l) 0); rows := l |}.

Definition len (df : DataFrame) : nat := List.length (rows df).

Definition iloc_slice (df : DataFrame) (a b : nat) : DataFrame :=
  {| has_columns := has_columns df;
     rows := firstn (b - a) (skipn a (rows df)) |}.

Definition column {A : Type} (f : WordOccurrence -> A) (df : DataFrame)
  : result (list A) :=
  if has_columns df then Ok (map f (rows df)) else Raise KeyError.

Definition iloc_first (df : DataFrame) : result WordOccurrence :=
  match rows df with
  | r :: _ => Ok r
  | [] => Raise IndexError
  end.

Definition iloc_last (df : DataFrame) : result WordOccurrence :=
  match rev (rows df) with
  | r :: _ => Ok r
  | [] => Raise IndexError
  end.

(** [Series.diff()]: NaN first, then each value minus its predecessor,
    rounded. *)
Fixpoint diff_from (prev : double) (l : list double) : list double :=
  match l with
  | [] => []
  | x :: l' => Binary64.sub x prev :: diff_from x l'
  end.

Definition diff (l : list double) : list double :=
  match l with
  | [] => []
  | x :: l' => S754_nan :: diff_from x l'
  end.

(** [Series.fillna(v)]: every NaN becomes [v]. *)
Definition fill (v x : double) : double := if is_nan x then v else x.

Definition fillna (v : double) (l : list double) : list double :=
  map (fill v) l.

(** [d <= 0.5] on doubles; false on NaN. *)
Definition le_half (d : double) : bool := SFleb d half.

(** [0.5 < d] on doubles; false on NaN. *)
Definition gt_half (d : double) : bool := SFltb half d.

Definition time_diffs (sts : list double) : list double :=
  fillna zero (diff sts).

(** [all(time_diffs[1:] <= 0.5)] *)
Definition time_ok (sts : list double) : bool :=
  forallb le_half (skipn 1 (time_diffs sts)).

Section Search.

(** [Series.mean()] on doubles.  The order in which the library adds
    the values is its own, so the mean is left open here. *)
Variable mean : list double -> double.

Definition search_window (index_df : DataFrame) (query : Query)
  (hits : list Hit) (i : nat) : result (list Hit) :=
  let num_words := List.length (words query) in
  let segment := iloc_slice index_df i (i + num_words) in
  ws <- column word segment ;;
  if Py.list_eqb ws (words query) then
    sts <- column start_time segment ;;
    if time_ok sts then
      first <- iloc_first segment ;;
      let start := start_time first in
      last <- iloc_last segment ;;
      let end_time := Binary64.add (start_time last) (duration last) in
      let dur := Binary64.sub end_time start in
      confs <- column confidence segment ;;
      let conf := mean confs in
      first' <- iloc_first segment ;;
      first'' <- iloc_first segment ;;
      Ok (hits ++ [mkHit (kwid query) (file_id first') (channel first'')
                         start dur conf "YES"])
    else Ok hits
  else Ok hits.

Definition search_query (index_df : DataFrame) (hits : list Hit) (query : Query)
  : result (list Hit) :=
  let num_words := List.length (words query) in
  for_each (search_window index_df query)
    (Py.range (Z.of_nat (len index_df) - Z.of_nat num_words + 1)) hits.

Definition perform_kws_search (index_df : DataFrame) (queries_df : list Query)
  : result (list Hit) :=
  for_each (search_query index_df) queries_df [].

(** The window of [L] records at offset [i], and what the program makes
    of it. *)
Definition window (ref : list WordOccurrence) (i L : nat) : list WordOccurrence :=
  firstn L (skipn i ref).

Definition hit_of (q : Query) (first : WordOccurrence) (rest : list WordOccurrence)
  : Hit :=
  let lst := List.last rest first in
  mkHit (kwid q) (file_id first) (channel first) (start_time first)
        (Binary64.sub (Binary64.add (start_time lst) (duration lst))
           (start_time first))
        (mean (map confidence (first :: rest))) "YES".

Definition hit_at (ref : list WordOccurrence) (q : Query) (i : nat) : option Hit :=
  match window ref i (List.length (words q)) with
  | first :: rest => Some (hit_of q first rest)
  | [] => None
  end.

End Search.

(** Token match, as for the exact model. *)
Definition tokens_match (ref : list WordOccurrence) (ws : list string) (i : nat)
  : Prop :=
  forall k r, (k < List.length ws)%nat ->
    nth_error ref (i + k) = Some r -> nth_error ws k = Some (word r).

(** Temporal contiguity on doubles: each of the [L-1] successive
    differences of start times, as the subtraction of doubles gives it,
    is at most 0.5. *)
Definition starts_close (ref : list WordOccurrence) (L i : nat) : Prop :=
  forall k a b, (S k < L)%nat ->
    nth_error ref (i + k) = Some a -> nth_error ref (i + S k) = Some b ->
    le_half (Binary64.sub (start_time b) (start_time a)) = true.

Definition qualifies (ref : list WordOccurrence) (ws : list string) (i : nat)
  : Prop :=
  (i + List.length ws <= List.length ref)%nat
  /\ tokens_match ref ws i
  /\ starts_close ref (List.length ws) i.


Definition window_ok (q : Query) (seg : list WordOccurrence) : bool :=
  Py.list_eqb (map word seg) (words q) && time_ok (map start_time seg).

Definition qualifying_offsets (ref : list WordOccurrence) (q : Query) : list nat :=
  filter (fun i => window_ok q (window ref i (List.length (words q))))
    (Py.range (Z.of_nat (List.length ref) - Z.of_nat (List.length (words q)) + 1)).

Definition query_hits (mean : list double -> double) (ref : list WordOccurrence)
  (q : Query) : list Hit :=
  flat_map (fun i => option_list (hit_at mean ref q i)) (qualifying_offsets ref q).

(** The sum over the count, the values added from left to right.  On
    two values every order of adding gives this double. *)
Definition mean_fold (l : list double) : double :=
  Binary64.div (fold_left Binary64.add l zero)
    (binary_normalize Binary64.prec Binary64.emax (Z.of_nat (List.length l)) 0%Z false).

(** Scenario A, its numbers the doubles the literals denote. *)
Definition scenario_A_ref : list WordOccurrence :=
  [ mkWord "f1" "1" zero (Binary64.literal 2 10) "go" (Binary64.literal 9 10);
    mkWord "f1" "1" (Binary64.literal 3 10) (Binary64.literal 2 10) "home"
      (Binary64.literal 8 10) ].

(** 0.8500000000000001, the double next above the literal [0.85]. *)
Definition score_A : double := S754_finite false 7656119366529844 (-53).

Definition scenario_A_hit : Hit :=
  mkHit "K1" "f1" "1" zero (Binary64.literal 5 10) score_A "YES".

(** Scenario C on doubles. *)
Definition scenario_C_ref : list WordOccurrence :=
  [ mkWord "f1" "1" zero (Binary64.literal 1 10) "go" (Binary64.literal 1 1);
    mkWord "f1" "1" (Binary64.literal 9 10) (Binary64.literal 1 10) "home"
      (Binary64.literal 1 1) ].

(** Start times 0.3 and 0.8: as doubles they are more than 0.5 apart,
    by 2^-54, and their difference rounds to 0.5. *)
Definition rounding_ref : list WordOccurrence :=
  [ mkWord "f1" "1" (Binary64.literal 3 10) (Binary64.literal 2 10) "go"
      (Binary64.literal 9 10);
    mkWord "f1" "1" (Binary64.literal 8 10) (Binary64.literal 2 10) "home"
      (Binary64.literal 8 10) ].

End F64.

(** * Lemmas *)

(** ** The loop combinator *)

Lemma for_each_append {A B : Type} (body : list B -> A -> result (list B))
  (f : A -> list B) (xs : list A) :
  (forall x s, In x xs -> body s x = Ok (s ++ f x)) ->
  forall s, for_each body xs s = Ok (s ++ flat_map f xs).
Proof.
  induction xs as [|x xs IH]; intros Hbody s; simpl.
  - now rewrite app_nil_r.
  - rewrite (Hbody x s (or_introl eq_refl)). simpl.
    rewrite IH by (intros; apply Hbody; now right).
    now rewrite app_assoc.
Qed.

Lemma flat_map_if {A B : Type} (p : A -> bool) (f : A -> list B) (xs : list A) :
  flat_map (fun x => if p x then f x else []) xs = flat_map f (filter p xs).
Proof.
  induction xs as [|x xs IH]; simpl; [reflexivity|].
  destruct (p x); simpl; now rewrite IH.
Qed.

(** ** Windows *)

Lemma window_length (ref : list WordOccurrence) (i L : nat) :
  (i + L <= List.length ref)%nat -> List.length (window ref i L) = L.
Proof.
  intros H. unfold window. rewrite length_firstn, length_skipn. lia.
Qed.

Lemma window_nth_error (ref : list WordOccurrence) (i L k : nat) :
  (k < L)%nat -> nth_error (window ref i L) k = nth_error ref (i + k).
Proof.
  intros H. unfold window.
  rewrite nth_error_firstn.
  destruct (Nat.ltb_spec k L); [|lia].
  now rewrite nth_error_skipn.
Qed.

Lemma list_eqb_true (a b : list string) : Py.list_eqb a b = true <-> a = b.
Proof.
  unfold Py.list_eqb. destruct (list_eq_dec string_dec a b); split; congruence.
Qed.

Lemma map_word_eq_iff (seg : list WordOccurrence) (ws : list string) :
  List.length seg = List.length ws ->
  (map word seg = ws <->
   forall k r, (k < List.length ws)%nat ->
     nth_error seg k = Some r -> nth_error ws k = Some (word r)).
Proof.
  revert ws. induction seg as [|r0 seg IH]; intros [|w ws] Hlen;
    simpl in Hlen; try discriminate.
  - split; [intros _ k r Hk; simpl in Hk; lia|reflexivity].
  - injection Hlen as Hlen. split.
    + intros Heq k r Hk Hr. simpl in Heq. injection Heq as <- Heq.
      destruct k as [|k]; simpl in *.
      * now injection Hr as <-.
      * apply (proj1 (IH ws Hlen) Heq k r); [lia|assumption].
    + intros H. simpl. f_equal.
      * specialize (H 0%nat r0 ltac:(simpl; lia) eq_refl). simpl in H. congruence.
      * apply (IH ws Hlen). intros k r Hk Hr.
        apply (H (S k) r); [simpl; lia|assumption].
Qed.

(** ** The temporal check *)

Lemma diffs_ok_iff (x : Q) (l : list Q) :
  forallb (fun d => Qle_bool d 0.5%Q) (fillna 0%Q (diff_from x l)) = true <->
  forall k a b, nth_error (x :: l) k = Some a ->
    nth_error (x :: l) (S k) = Some b -> (b - a <= 0.5)%Q.
Proof.
  revert x. induction l as [|y l IH]; intros x; simpl.
  - split; [|reflexivity]. intros _ k a b _ Hb. now destruct k.
  - rewrite andb_true_iff, Qle_bool_iff, IH. split.
    + intros [H0 H] [|k] a b Ha Hb; simpl in *.
      * injection Ha as <-. now injection Hb as <-.
      * now apply (H k).
    + intros H. split.
      * now apply (H 0%nat).
      * intros k a b Ha Hb. now apply (H (S k)).
Qed.

Lemma time_ok_iff (sts : list Q) :
  time_ok sts = true <->
  forall k a b, nth_error sts k = Some a ->
    nth_error sts (S k) = Some b -> (b - a <= 0.5)%Q.
Proof.
  unfold time_ok, time_diffs. destruct sts as [|x l]; simpl.
  - split; [|reflexivity]. intros _ k a b Ha. now destruct k.
  - apply diffs_ok_iff.
Qed.

(** A one-record window always passes the temporal check. *)
Lemma time_ok_single (x : Q) : time_ok [x] = true.
Proof. reflexivity. Qed.

Lemma window_ok_iff (ref : list WordOccurrence) (q : Query) (i : nat) :
  (i + List.length (words q) <= List.length ref)%nat ->
  (window_ok q (window ref i (List.length (words q))) = true <->
   tokens_match ref (words q) i /\ starts_close ref (List.length (words q)) i).
Proof.
  intros Hi. set (L := List.length (words q)) in *.
  unfold window_ok. rewrite andb_true_iff, list_eqb_true, time_ok_iff.
  rewrite (map_word_eq_iff _ _ (window_length ref i L Hi)).
  fold L. split; intros [Htok Htime]; split.
  - intros k r Hk Hr. apply Htok; [assumption|].
    now rewrite window_nth_error.
  - intros k a b Hk Ha Hb.
    apply (Htime k); rewrite nth_error_map, window_nth_error by lia.
    + now rewrite Ha.
    + now rewrite Hb.
  - intros k r Hk Hr. apply Htok; [assumption|].
    now rewrite <- (window_nth_error ref i L k).
  - intros k a b Ha Hb.
    assert (HSk : (S k < L)%nat).
    { assert (Hb' : nth_error (map start_time (window ref i L)) (S k) <> None)
        by congruence.
      apply nth_error_Some in Hb'.
      rewrite length_map, (window_length ref i L Hi) in Hb'. exact Hb'. }
    rewrite nth_error_map, window_nth_error in Ha, Hb by lia.
    destruct (nth_error ref (i + k)) as [ra|] eqn:Ea; [|discriminate].
    destruct (nth_error ref (i + S k)) as [rb|] eqn:Eb; [|discriminate].
    simpl in Ha, Hb. injection Ha as <-. injection Hb as <-.
    now apply (Htime k).
Qed.

(** ** One step of the inner loop *)

Lemma last_cons {A : Type} (x y : A) (l : list A) :
  List.last (y :: l) x = List.last l y.
Proof.
  revert x y. induction l as [|z l IH]; intros x y; [reflexivity|].
  change (List.last (y :: z :: l) x) with (List.last (z :: l) x).
  now rewrite (IH x z), (IH y z).
Qed.

Lemma rev_cons_last {A : Type} (x : A) (l : list A) :
  exists t, rev (x :: l) = List.last l x :: t.
Proof.
  revert x. induction l as [|y l IH]; intros x.
  - now exists [].
  - destruct (IH y) as [t Ht]. exists (t ++ [x]).
    change (rev (x :: y :: l)) with (rev (y :: l) ++ [x]).
    rewrite Ht, last_cons. reflexivity.
Qed.

Lemma iloc_last_cons (b : bool) (x : WordOccurrence) (l : list WordOccurrence) :
  iloc_last (mkDF b (x :: l)) = Ok (List.last l x).
Proof.
  unfold iloc_last. cbn [rows].
  destruct (rev_cons_last x l) as [t ->]. reflexivity.
Qed.

Lemma iloc_slice_rows (df : DataFrame) (i L : nat) :
  rows (iloc_slice df i (i + L)) = window (rows df) i L.
Proof.
  unfold iloc_slice, window. cbn [rows]. now replace (i + L - i)%nat with L by lia.
Qed.

(** On a frame with columns and a non-empty window, the step appends the
    window's hit exactly when the window passes both checks. *)
Lemma search_window_spec (df : DataFrame) (q : Query) (hits : list Hit) (i : nat) :
  has_columns df = true ->
  window (rows df) i (List.length (words q)) <> [] ->
  search_window df q hits i =
  Ok (hits ++ if window_ok q (window (rows df) i (List.length (words q)))
              then option_list (hit_at (rows df) q i) else []).
Proof.
  intros Hcols Hne. unfold search_window, column, hit_at, window_ok.
  pose proof (iloc_slice_rows df i (List.length (words q))) as Hrows.
  destruct (iloc_slice df i (i + List.length (words q))) as [b seg] eqn:Eseg.
  assert (Hb : b = true).
  { unfold iloc_slice in Eseg. injection Eseg as <- _. exact Hcols. }
  cbn [rows has_columns] in *. subst b. rewrite <- Hrows in *. simpl bind.
  destruct (Py.list_eqb (map word seg) (words q)); simpl;
    [|now rewrite app_nil_r].
  destruct (time_ok (map start_time seg)); simpl; [|now rewrite app_nil_r].
  destruct seg as [|first rest]; [congruence|].
  rewrite iloc_last_cons. reflexivity.
Qed.

(** With no word to look for the window is empty, passes both checks,
    and the program then indexes its first row. *)
Lemma search_window_empty_query (df : DataFrame) (q : Query) (hits : list Hit)
  (i : nat) :
  words q = [] ->
  search_window df q hits i =
  Raise (if has_columns df then IndexError else KeyError).
Proof.
  intros Hw. unfold search_window, column.
  pose proof (iloc_slice_rows df i (List.length (words q))) as Hrows.
  destruct (iloc_slice df i (i + List.length (words q))) as [b seg] eqn:Eseg.
  assert (Hb : b = has_columns df).
  { unfold iloc_slice in Eseg. now injection Eseg as <- _. }
  cbn [rows has_columns] in *. rewrite <- Hb.
  rewrite Hw in *. unfold window in Hrows. simpl in Hrows. subst seg.
  destruct b; reflexivity.
Qed.

(** ** The two loops *)

Lemma range_In (n : Z) (i : nat) : In i (Py.range n) <-> (Z.of_nat i < n)%Z.
Proof. unfold Py.range. rewrite in_seq. lia. Qed.

Lemma search_query_spec (ref : list WordOccurrence) (q : Query) (hits : list Hit) :
  words q <> [] ->
  search_query (of_records ref) hits q = Ok (hits ++ query_hits ref q).
Proof.
  intros Hne. unfold search_query, query_hits, qualifying_offsets.
  rewrite <- flat_map_if. unfold len. cbn [rows of_records].
  apply for_each_append with
    (f := fun i => if window_ok q (window ref i (List.length (words q)))
                   then option_list (hit_at ref q i) else []).
  intros i s Hi. apply range_In in Hi.
  assert (HL : (0 < List.length (words q))%nat).
  { destruct (words q); [congruence|simpl; lia]. }
  apply (search_window_spec (of_records ref)).
  - unfold of_records. cbn [has_columns].
    destruct ref; [simpl in Hi; lia|reflexivity].
  - cbn [rows of_records]. intros Hw.
    apply (f_equal (@List.length _)) in Hw.
    rewrite window_length in Hw by lia. simpl in Hw. lia.
Qed.

Lemma perform_kws_search_from (ref : list WordOccurrence) (queries : list Query) :
  Forall (fun q => words q <> []) queries ->
  forall hits,
    for_each (search_query (of_records ref)) queries hits =
    Ok (hits ++ flat_map (query_hits ref) queries).
Proof.
  intros Hall. apply for_each_append.
  intros q s Hq. apply search_query_spec.
  rewrite Forall_forall in Hall. now apply Hall.
Qed.

(** Every query with at least one word: the result is the hits of the
    queries, query after query. *)
Lemma perform_kws_search_spec (ref : list WordOccurrence) (queries : list Query) :
  Forall (fun q => words q <> []) queries ->
  perform_kws_search (of_records ref) queries =
  Ok (flat_map (query_hits ref) queries).
Proof.
  intros Hall. unfold perform_kws_search.
  now rewrite (perform_kws_search_from ref queries Hall []).
Qed.

(** ** The accepted offsets *)

Lemma qualifying_offsets_spec (ref : list WordOccurrence) (q : Query) (i : nat) :
  In i (qualifying_offsets ref q) <-> qualifies ref (words q) i.
Proof.
  unfold qualifying_offsets, qualifies.
  rewrite filter_In, range_In. split.
  - intros [Hi Hok].
    assert (Hle : (i + List.length (words q) <= List.length ref)%nat) by lia.
    split; [exact Hle|]. now apply window_ok_iff.
  - intros [Hle Hq]. split; [lia|]. now apply window_ok_iff.
Qed.

Lemma seq_sorted (a n : nat) : StronglySorted lt (seq a n).
Proof.
  revert a. induction n as [|n IH]; intros a; simpl; constructor.
  - apply IH.
  - apply Forall_forall. intros x Hx. apply in_seq in Hx. lia.
Qed.

Lemma filter_sorted (p : nat -> bool) (l : list nat) :
  StronglySorted lt l -> StronglySorted lt (filter p l).
Proof.
  induction 1 as [|x l Hs IH Hx]; simpl; [constructor|].
  destruct (p x); [|exact IH].
  constructor; [exact IH|].
  rewrite Forall_forall in *. intros y Hy. apply filter_In in Hy.
  now apply Hx.
Qed.

Lemma qualifying_offsets_sorted (ref : list WordOccurrence) (q : Query) :
  StronglySorted lt (qualifying_offsets ref q).
Proof. apply filter_sorted, seq_sorted. Qed.

Lemma hit_at_some (ref : list WordOccurrence) (q : Query) (i : nat) :
  words q <> [] -> qualifies ref (words q) i ->
  exists first rest,
    window ref i (List.length (words q)) = first :: rest
    /\ hit_at ref q i = Some (hit_of q first rest).
Proof.
  intros Hne [Hle _]. unfold hit_at.
  pose proof (window_length ref i _ Hle) as Hlen.
  destruct (window ref i (List.length (words q))) as [|first rest].
  - destruct (words q); [congruence|discriminate].
  - now exists first, rest.
Qed.

Lemma flat_map_option_Forall2 {A B : Type} (f : A -> option B) (xs : list A) :
  (forall x, In x xs -> f x <> None) ->
  Forall2 (fun x y => f x = Some y) xs (flat_map (fun x => option_list (f x)) xs).
Proof.
  induction xs as [|x xs IH]; intros H; simpl; [constructor|].
  destruct (f x) as [y|] eqn:E.
  - simpl. constructor; [exact E|]. apply IH. intros; apply H; now right.
  - exfalso. now apply (H x (or_introl eq_refl)).
Qed.

Lemma query_hits_Forall2 (ref : list WordOccurrence) (q : Query) :
  words q <> [] ->
  Forall2 (fun i h => hit_at ref q i = Some h)
    (qualifying_offsets ref q) (query_hits ref q).
Proof.
  intros Hne. apply flat_map_option_Forall2.
  intros i Hi. apply qualifying_offsets_spec in Hi.
  destruct (hit_at_some ref q i Hne Hi) as (first & rest & _ & ->). discriminate.
Qed.

(** Where a hit of the result comes from. *)
Lemma query_hits_In (ref : list WordOccurrence) (q : Query) (h : Hit) :
  In h (query_hits ref q) ->
  exists i first rest,
    qualifies ref (words q) i
    /\ window ref i (List.length (words q)) = first :: rest
    /\ h = hit_of q first rest.
Proof.
  unfold query_hits. rewrite in_flat_map. intros (i & Hi & Hh).
  apply qualifying_offsets_spec in Hi.
  unfold hit_at in Hh.
  destruct (window ref i (List.length (words q))) as [|first rest] eqn:Ew;
    simpl in Hh; [contradiction|].
  destruct Hh as [<-|[]]. now exists i, first, rest.
Qed.

Lemma perform_kws_search_In (ref : list WordOccurrence) (queries : list Query)
  (hits : list Hit) (h : Hit) :
  Forall (fun q => words q <> []) queries ->
  perform_kws_search (of_records ref) queries = Ok hits ->
  In h hits ->
  exists q i first rest,
    In q queries
    /\ qualifies ref (words q) i
    /\ window ref i (List.length (words q)) = first :: rest
    /\ h = hit_of q first rest.
Proof.
  intros Hall Hrun Hin.
  rewrite (perform_kws_search_spec ref queries Hall) in Hrun.
  injection Hrun as <-. apply in_flat_map in Hin as (q & Hq & Hh).
  destruct (query_hits_In ref q h Hh) as (i & first & rest & H).
  now exists q, i, first, rest.
Qed.

(** ** Queries without words *)

Lemma search_query_empty_query (df : DataFrame) (q : Query) (hits : list Hit) :
  words q = [] ->
  search_query df hits q = Raise (if has_columns df then IndexError else KeyError).
Proof.
  intros Hw. unfold search_query. rewrite Hw. simpl List.length.
  replace (Z.of_nat (len df) - Z.of_nat 0 + 1)%Z with (Z.of_nat (S (len df))) by lia.
  unfold Py.range. rewrite Nat2Z.id. simpl.
  now rewrite (search_window_empty_query df q hits 0 Hw).
Qed.

Lemma for_each_raises {A S : Type} (body : S -> A -> result S) (xs : list A)
  (x : A) :
  In x xs -> (forall s, exists e, body s x = Raise e) ->
  forall s, exists e, for_each body xs s = Raise e.
Proof.
  induction xs as [|y ys IH]; intros Hin Hx s; [contradiction|].
  simpl. destruct Hin as [->|Hin].
  - destruct (Hx s) as [e ->]. now exists e.
  - destruct (body s y) as [s'|e]; simpl; [now apply IH|now exists e].
Qed.

(** A query without words makes the whole search raise. *)
Lemma perform_kws_search_empty_query (df : DataFrame) (queries : list Query)
  (q : Query) :
  In q queries -> words q = [] ->
  exists e, perform_kws_search df queries = Raise e.
Proof.
  intros Hin Hw. unfold perform_kws_search.
  apply (for_each_raises _ _ q Hin).
  intros s. rewrite (search_query_empty_query df q s Hw). eauto.
Qed.

(** So a search that returns had only queries with words. *)
Lemma perform_kws_search_ok_words (df : DataFrame) (queries : list Query)
  (hits : list Hit) :
  perform_kws_search df queries = Ok hits ->
  Forall (fun q => words q <> []) queries.
Proof.
  intros Hrun. apply Forall_forall. intros q Hin Hw.
  destruct (perform_kws_search_empty_query df queries q Hin Hw) as [e He].
  congruence.
Qed.

Lemma perform_kws_search_hit_origin (ref : list WordOccurrence)
  (queries : list Query) (hits : list Hit) (h : Hit) :
  perform_kws_search (of_records ref) queries = Ok hits ->
  In h hits ->
  exists q i first rest,
    In q queries
    /\ qualifies ref (words q) i
    /\ window ref i (List.length (words q)) = first :: rest
    /\ h = hit_of q first rest.
Proof.
  intros Hrun. apply perform_kws_search_In; [|exact Hrun].
  exact (perform_kws_search_ok_words _ _ _ Hrun).
Qed.

(** ** Sums, means, least and greatest *)









(** ** References in order of start time *)

Section SortedWindows.

Let R (a b : WordOccurrence) : Prop := (start_time a <= start_time b)%Q.

Lemma starts_sorted_strongly (ref : list WordOccurrence) :
  starts_sorted ref -> StronglySorted R ref.
Proof.
  apply Sorted_StronglySorted. intros a b c Hab Hbc.
  exact (Qle_trans _ _ _ Hab Hbc).
Qed.

Lemma strongly_sorted_skipn (i : nat) (l : list WordOccurrence) :
  StronglySorted R l -> StronglySorted R (skipn i l).
Proof.
  revert l. induction i as [|i IH]; intros l Hs; [exact Hs|].
  destruct l as [|x l]; [constructor|]. simpl. apply IH.
  now inversion Hs.
Qed.

Lemma in_firstn (n : nat) (l : list WordOccurrence) (y : WordOccurrence) :
  In y (firstn n l) -> In y l.
Proof.
  revert l. induction n as [|n IH]; intros [|x l]; simpl; try contradiction.
  intros [->|H]; [now left|right; now apply IH].
Qed.

Lemma strongly_sorted_firstn (n : nat) (l : list WordOccurrence) :
  StronglySorted R l -> StronglySorted R (firstn n l).
Proof.
  revert l. induction n as [|n IH]; intros l Hs; [constructor|].
  destruct l as [|x l]; [constructor|]. simpl.
  inversion Hs as [|? ? Hl Hx]; subst. constructor; [now apply IH|].
  rewrite Forall_forall in *. intros y Hy. apply Hx.
  now apply (in_firstn n).
Qed.

Lemma last_in (l : list WordOccurrence) (d : WordOccurrence) :
  In (List.last l d) (d :: l).
Proof.
  revert d. induction l as [|x l IH]; intros d; [now left|].
  rewrite last_cons. right. apply IH.
Qed.

(** In a window of a sorted reference the last record starts no
    earlier than the first. *)
Lemma window_first_le_last (ref : list WordOccurrence) (i L : nat)
  (first : WordOccurrence) (rest : list WordOccurrence) :
  starts_sorted ref -> window ref i L = first :: rest ->
  (start_time first <= start_time (List.last rest first))%Q.
Proof.
  intros Hs Hw.
  assert (Hsw : StronglySorted R (first :: rest)).
  { rewrite <- Hw. unfold window.
    now apply strongly_sorted_firstn, strongly_sorted_skipn, starts_sorted_strongly. }
  inversion Hsw as [|? ? _ Hall]; subst.
  destruct (last_in rest first) as [<-|Hin]; [apply Qle_refl|].
  rewrite Forall_forall in Hall. now apply Hall.
Qed.

End SortedWindows.

(** ** Single-token queries *)

Lemma window_one (ref : list WordOccurrence) (i : nat) :
  window ref i 1 = option_list (nth_error ref i).
Proof.
  unfold window. revert ref. induction i as [|i IH]; intros [|x ref]; simpl;
    try reflexivity.
  apply IH.
Qed.

Lemma filter_positions_length {A : Type} (g : option A -> bool) (l pre : list A) :
  List.length
    (filter (fun i => g (nth_error (pre ++ l) i))
       (seq (List.length pre) (List.length l)))
  = List.length (filter (fun x => g (Some x)) l).
Proof.
  revert pre. induction l as [|x l IH]; intros pre; [reflexivity|].
  cbn [List.length seq filter].
  rewrite nth_error_app2, Nat.sub_diag by lia. cbn [nth_error].
  specialize (IH (pre ++ [x])).
  rewrite <- app_assoc, length_app in IH. cbn [List.length app] in IH.
  rewrite Nat.add_1_r in IH.
  destruct (g (Some x)); cbn [List.length]; now rewrite IH.
Qed.

Lemma single_token_window_ok (q : Query) (w : string) (r : WordOccurrence) :
  words q = [w] ->
  window_ok q [r] = if string_dec (word r) w then true else false.
Proof.
  intros Hw. unfold window_ok. rewrite Hw. cbn [map].
  rewrite time_ok_single, andb_true_r.
  destruct (string_dec (word r) w) as [->|Hne].
  - now apply list_eqb_true.
  - destruct (Py.list_eqb [word r] [w]) eqn:E; [|reflexivity].
    apply list_eqb_true in E. congruence.
Qed.

Lemma single_token_offsets (ref : list WordOccurrence) (q : Query) (w : string) :
  words q = [w] ->
  List.length (qualifying_offsets ref q) = count_occ string_dec (map word ref) w.
Proof.
  intros Hw. unfold qualifying_offsets. rewrite Hw. cbn [List.length].
  replace (Z.of_nat (List.length ref) - Z.of_nat 1 + 1)%Z
    with (Z.of_nat (List.length ref)) by lia.
  unfold Py.range. rewrite Nat2Z.id.
  rewrite (filter_ext _
             (fun i => match nth_error ref i with
                       | Some r => window_ok q [r]
                       | None => window_ok q []
                       end)).
  2:{ intros i. rewrite window_one. now destruct (nth_error ref i). }
  pose proof (filter_positions_length
                (fun o => match o with
                          | Some r => window_ok q [r]
                          | None => window_ok q []
                          end) ref []) as Hpos.
  cbn [app List.length] in Hpos. rewrite Hpos. clear Hpos.
  induction ref as [|r ref IH]; [reflexivity|].
  cbn [filter map count_occ]. rewrite (single_token_window_ok q w r Hw).
  destruct (string_dec (word r) w); cbn [List.length]; now rewrite IH.
Qed.

Lemma Forall2_same_length {A B : Type} (P : A -> B -> Prop) (xs : list A)
  (ys : list B) :
  Forall2 P xs ys -> List.length xs = List.length ys.
Proof. induction 1; simpl; congruence. Qed.

(** ** Reading the transcript *)

Section ParseCtmFacts.

Variable float : string -> option Q.

Lemma six_fields (parts : list string) :
  (6 <= List.length parts)%nat ->
  exists t,
    parts = nth 0 parts "" :: nth 1 parts "" :: nth 2 parts "" ::
            nth 3 parts "" :: nth 4 parts "" :: nth 5 parts "" :: t.
Proof.
  intros H.
  do 6 (destruct parts as [|? parts]; [simpl in H; lia|]).
  now exists parts.
Qed.

Lemma parse_ctm_line_short (index : list WordOccurrence) (line : string) :
  (List.length (fields line) < 6)%nat ->
  parse_ctm_line float index line = Ok index.
Proof.
  intros H. unfold parse_ctm_line. fold (fields line).
  now apply Nat.ltb_lt in H as ->.
Qed.

Lemma parse_ctm_line_record (index : list WordOccurrence) (line : string) :
  (6 <= List.length (fields line))%nat ->
  numbers_parse float (fields line) ->
  exists r,
    parse_ctm_line float index line = Ok (index ++ [r])
    /\ record_of_fields float (fields line) r.
Proof.
  intros Hlen (H2 & H3 & H5). unfold parse_ctm_line. fold (fields line).
  apply Nat.ltb_ge in Hlen as Hlt. rewrite Hlt.
  destruct (six_fields _ Hlen) as [t E].
  set (parts := fields line) in *. rewrite E. cbn [firstn].
  unfold to_float.
  destruct (float (nth 2 parts "")) as [st|] eqn:E2; [|congruence].
  destruct (float (nth 3 parts "")) as [du|] eqn:E3; [|congruence].
  destruct (float (nth 5 parts "")) as [co|] eqn:E5; [|congruence].
  cbn [bind]. eexists. split; [reflexivity|].
  unfold record_of_fields. cbn [file_id channel start_time duration word confidence].
  rewrite <- E. now rewrite E2, E3, E5.
Qed.

Lemma parse_ctm_line_fail (index : list WordOccurrence) (line : string) :
  (6 <= List.length (fields line))%nat ->
  number_fails float (fields line) ->
  parse_ctm_line float index line = Raise ValueError.
Proof.
  intros Hlen Hfail. unfold parse_ctm_line. fold (fields line).
  apply Nat.ltb_ge in Hlen as Hlt. rewrite Hlt.
  destruct (six_fields _ Hlen) as [t E].
  set (parts := fields line) in *. rewrite E. cbn [firstn].
  unfold to_float.
  destruct (float (nth 2 parts "")) as [st|] eqn:E2; [|reflexivity].
  destruct (float (nth 3 parts "")) as [du|] eqn:E3; [|reflexivity].
  destruct (float (nth 5 parts "")) as [co|] eqn:E5; [|reflexivity].
  destruct Hfail as [H|[H|H]]; congruence.
Qed.

(** [ValueError] is the only exception the loop can raise. *)
Lemma parse_ctm_line_raise (index : list WordOccurrence) (line : string) (e : exn) :
  parse_ctm_line float index line = Raise e -> e = ValueError.
Proof.
  unfold parse_ctm_line, to_float.
  destruct (List.length (Py.split (Py.strip line)) <? 6)%nat; [discriminate|].
  destruct (firstn 6 (Py.split (Py.strip line))) as [|f [|c [|st [|du [|w [|co [|x t]]]]]]];
    try (intros [= <-]; reflexivity).
  destruct (float st); cbn [bind]; [|intros [= <-]; reflexivity].
  destruct (float du); cbn [bind]; [|intros [= <-]; reflexivity].
  destruct (float co); cbn [bind]; [|intros [= <-]; reflexivity].
  discriminate.
Qed.

Lemma parse_ctm_loop_raise (lines : list string) (index : list WordOccurrence)
  (e : exn) :
  for_each (parse_ctm_line float) lines index = Raise e -> e = ValueError.
Proof.
  revert index. induction lines as [|line lines IH]; intros index; simpl;
    [discriminate|].
  destruct (parse_ctm_line float index line) as [index'|e'] eqn:E; simpl.
  - apply IH.
  - intros [= <-]. exact (parse_ctm_line_raise _ _ _ E).
Qed.

Lemma parse_ctm_loop_ok (lines : list string) :
  (forall line, In line lines -> (6 <= List.length (fields line))%nat ->
                numbers_parse float (fields line)) ->
  forall index, exists recs,
    for_each (parse_ctm_line float) lines index = Ok (index ++ recs)
    /\ Forall2 (record_of_fields float) (record_lines lines) recs.
Proof.
  unfold record_lines.
  induction lines as [|line lines IH]; intros Hnum index.
  - exists []. split; [simpl; now rewrite app_nil_r|constructor].
  - cbn [for_each map filter].
    destruct (Nat.leb_spec 6 (List.length (fields line))) as [Hlen|Hlen].
    + destruct (parse_ctm_line_record index line Hlen) as (r & -> & Hr).
      { apply Hnum; [now left|exact Hlen]. }
      destruct (IH (fun l Hl => Hnum l (or_intror Hl)) (index ++ [r]))
        as (recs & Hrun & Hrecs).
      exists (r :: recs). cbn [bind]. rewrite Hrun, <- app_assoc.
      split; [reflexivity|now constructor].
    + rewrite (parse_ctm_line_short index line Hlen). cbn [bind].
      apply IH. intros l Hl. apply Hnum. now right.
Qed.

End ParseCtmFacts.

(** * Theorems *)

(** Overlapping windows of a repeated word: both are reported. *)
Example repeated_word_two_hits :
  exists h0 h1,
    perform_kws_search (of_records repeated_ref) [repeated_query] = Ok [h0; h1]
    /\ hit_at repeated_ref repeated_query 0 = Some h0
    /\ hit_at repeated_ref repeated_query 1 = Some h1.
Proof. do 2 eexists. repeat split; reflexivity. Qed.

(** Scenario A in the exact model: one hit. *)
Example scenario_A_exact :
  perform_kws_search (of_records scenario_A_ref) [scenario_A_query]
  = Ok [scenario_A_hit].
Proof. reflexivity. Qed.

(** The sums of scenario A on doubles: the duration is the double 0.5;
    the score is the double next above the one nearest to 0.85 (it
    prints as 0.850000 with six decimals). *)
Remark scenario_A_on_doubles :
  Binary64.sub (Binary64.add (Binary64.literal 3 10) (Binary64.literal 2 10))
    (S754_zero false)
  = Binary64.literal 5 10
  /\ Binary64.literal 85 100 = S754_finite false 7656119366529843 (-53)
  /\ Binary64.mean2 (Binary64.literal 9 10) (Binary64.literal 8 10)
     = S754_finite false 7656119366529844 (-53).
Proof. repeat split; vm_compute; reflexivity. Qed.

(** C3, as the program has it.  When no record of the reference starts
    before its predecessor and durations are not negative, every hit has
    a duration that is not negative. *)
Theorem hit_duration_nonneg_sorted (ref : list WordOccurrence)
  (queries : list Query) (hits : list Hit) (h : Hit) :
  starts_sorted ref ->
  Forall (fun r => (0 <= duration r)%Q) ref ->
  perform_kws_search (of_records ref) queries = Ok hits ->
  In h hits ->
  (0 <= hit_duration h)%Q.
Proof.
  intros Hsorted Hdur Hrun Hin.
  destruct (perform_kws_search_hit_origin ref queries hits h Hrun Hin)
    as (q & i & first & rest & _ & _ & Hw & ->).
  cbn [hit_of hit_duration].
  pose proof (window_first_le_last ref i _ first rest Hsorted Hw) as Hle.
  assert (Hlast : (0 <= duration (List.last rest first))%Q).
  { rewrite Forall_forall in Hdur. apply Hdur.
    assert (Hin' : In (List.last rest first) (window ref i (List.length (words q)))).
    { rewrite Hw. apply last_in. }
    unfold window in Hin'. apply in_firstn in Hin'.
    clear - Hin'. revert Hin'. generalize (List.last rest first). intros r.
    revert ref. induction i as [|i IH]; intros [|x ref] H; simpl in *;
      try contradiction; auto. }
  lra.
Qed.

Lemma hit_duration_nonneg_sorted_scenario_A :
  (0 <= hit_duration scenario_A_hit)%Q.
Proof.
  apply (hit_duration_nonneg_sorted scenario_A_ref [scenario_A_query]
           [scenario_A_hit] scenario_A_hit).
  - repeat constructor; discriminate.
  - repeat constructor; discriminate.
  - reflexivity.
  - left. reflexivity.
Defined.

(** C3 as stated fails: on a reference whose second record starts
    before the first, with every start time and duration non-negative,
    the window passes the check (the difference is negative, hence at
    most 0.5) and the hit's duration is negative. *)
Lemma hit_duration_negative_unsorted :
  Forall (fun r => (0 <= start_time r)%Q /\ (0 <= duration r)%Q) unsorted_ref
  /\ exists h,
       perform_kws_search (of_records unsorted_ref) [scenario_A_query] = Ok [h]
       /\ (hit_duration h < 0)%Q.
Proof.
  split.
  - repeat constructor; discriminate.
  - eexists. split; reflexivity.
Qed.

(** C4, on the program: the query loaded from a white-space-only
    [kwtext] has no words, and searching for it raises [IndexError] on a
    one-record reference and [KeyError] on an empty one. *)
Theorem blank_query_raises :
  parse_queries [blank_kw] = Ok [blank_query]
  /\ perform_kws_search (of_records one_word_ref) [blank_query] = Raise IndexError
  /\ perform_kws_search (of_records []) [blank_query] = Raise KeyError.
Proof. repeat split; reflexivity. Qed.



(** C6. For a query of a single token, every one-record window passes
    the temporal check, and the number of hits is the number of records
    of the reference whose word is that token. *)
Theorem single_token_hit_count (ref : list WordOccurrence) (q : Query) (w : string) :
  words q = [w] ->
  (forall i, time_ok (map start_time (window ref i 1)) = true)
  /\ exists hits,
       perform_kws_search (of_records ref) [q] = Ok hits
       /\ List.length hits = count_occ string_dec (map word ref) w.
Proof.
  intros Hw. split.
  - intros i. rewrite window_one. now destruct (nth_error ref i).
  - assert (Hne : words q <> []) by (rewrite Hw; discriminate).
    exists (query_hits ref q). split.
    + rewrite (perform_kws_search_spec ref [q]) by (constructor; [exact Hne|constructor]).
      cbn [flat_map]. now rewrite app_nil_r.
    + rewrite <- (Forall2_same_length _ _ _ (query_hits_Forall2 ref q Hne)).
      now apply single_token_offsets.
Qed.

Lemma single_token_hit_count_repeated :
  (forall i, time_ok (map start_time (window repeated_ref i 1)) = true)
  /\ exists hits,
       perform_kws_search (of_records repeated_ref) [mkQuery "K4" "no" ["no"]]
       = Ok hits
       /\ List.length hits = count_occ string_dec (map word repeated_ref) "no".
Proof.
  apply (single_token_hit_count repeated_ref (mkQuery "K4" "no" ["no"]) "no").
  reflexivity.
Defined.

(** C7, as the program has it.  When the third, fourth and sixth field
    of every line of at least six fields are numbers, [parse_ctm]
    returns one record per line of at least six fields, in the order of
    the lines, made of the first six fields of its line; lines of fewer
    fields leave no record and raise nothing. *)
Theorem parse_ctm_one_record_per_full_line (float : string -> option Q)
  (lines : list string) :
  (forall line, In line lines -> (6 <= List.length (fields line))%nat ->
                numbers_parse float (fields line)) ->
  exists recs,
    parse_ctm float lines = Ok (of_records recs)
    /\ Forall2 (record_of_fields float) (record_lines lines) recs.
Proof.
  intros Hnum. unfold parse_ctm.
  destruct (parse_ctm_loop_ok float lines Hnum []) as (recs & -> & Hrecs).
  exists recs. split; [reflexivity|exact Hrecs].
Qed.

Lemma parse_ctm_one_record_per_full_line_scenario_D :
  exists recs,
    parse_ctm Decimal.float scenario_D_lines = Ok (of_records recs)
    /\ Forall2 (record_of_fields Decimal.float) (record_lines scenario_D_lines) recs.
Proof.
  apply (parse_ctm_one_record_per_full_line Decimal.float scenario_D_lines).
  intros line Hin Hlen.
  destruct Hin as [<-|[<-|[<-|[<-|[<-|[]]]]]];
    first [ exfalso; vm_compute in Hlen; lia
          | repeat split; vm_compute; discriminate ].
Defined.

(** Scenario D: three malformed lines among two records give exactly
    the two records. *)
Example scenario_D :
  parse_ctm Decimal.float scenario_D_lines = Ok (of_records scenario_A_ref)
  /\ List.length scenario_A_ref = 2%nat.
Proof. split; reflexivity. Qed.

(** C7 as stated fails: a line of six fields whose start time is not a
    number yields no record, and no record sequence at all. *)
Lemma parse_ctm_full_line_without_record :
  ~ exists recs,
      parse_ctm Decimal.float bad_number_lines = Ok (of_records recs)
      /\ List.length recs = List.length (record_lines bad_number_lines).
Proof. intros (recs & Hrun & _). vm_compute in Hrun. discriminate. Qed.

(** C8. A line of at least six fields whose start time, duration or
    confidence is not a number makes [parse_ctm] raise [ValueError]: the
    line is not skipped and no records are returned. *)
Theorem parse_ctm_bad_number_raises (float : string -> option Q)
  (lines : list string) (line : string) :
  In line lines ->
  (6 <= List.length (fields line))%nat ->
  number_fails float (fields line) ->
  parse_ctm float lines = Raise ValueError.
Proof.
  intros Hin Hlen Hfail. unfold parse_ctm.
  destruct (for_each_raises (parse_ctm_line float) lines line Hin
              (fun s => ex_intro _ ValueError (parse_ctm_line_fail float s line Hlen Hfail))
              []) as [e He].
  rewrite He. cbn [bind]. f_equal.
  exact (parse_ctm_loop_raise float lines [] e He).
Qed.

Lemma parse_ctm_bad_number_raises_example :
  parse_ctm Decimal.float bad_number_lines = Raise ValueError.
Proof.
  apply (parse_ctm_bad_number_raises Decimal.float bad_number_lines
           "f1 1 abc 0.2 home 0.8").
  - right. left. reflexivity.
  - vm_compute. lia.
  - left. reflexivity.
Defined.



(** A window over the end of file f1 and the start of file f2 is
    reported under f1, channel 1. *)
Example two_files_hit :
  exists h,
    perform_kws_search (of_records two_files_ref) [scenario_A_query] = Ok [h]
    /\ hit_file_id h = "f1" /\ hit_channel h = "1".
Proof. eexists. repeat split; reflexivity. Qed.

(** C10. A query with more words than the reference has records (an
    empty reference included) adds no hit and raises nothing, whatever
    was found before it; alone, it returns the empty list of hits. *)
Theorem longer_query_no_hits (ref : list WordOccurrence) (q : Query) :
  (List.length ref < List.length (words q))%nat ->
  (forall hits, search_query (of_records ref) hits q = Ok hits)
  /\ perform_kws_search (of_records ref) [q] = Ok [].
Proof.
  intros Hlt.
  assert (Hq : forall hits, search_query (of_records ref) hits q = Ok hits).
  { intros hits. unfold search_query, len, Py.range. cbn [rows of_records].
    replace (Z.to_nat (Z.of_nat (List.length ref)
                       - Z.of_nat (List.length (words q)) + 1)) with 0%nat by lia.
    reflexivity. }
  split; [exact Hq|].
  unfold perform_kws_search. cbn [for_each]. now rewrite Hq.
Qed.

Lemma longer_query_no_hits_empty_ref :
  (forall hits, search_query (of_records []) hits scenario_A_query = Ok hits)
  /\ perform_kws_search (of_records []) [scenario_A_query] = Ok [].
Proof.
  apply (longer_query_no_hits [] scenario_A_query). simpl. lia.
Defined.


(** * Further lemmas *)

(** ** More on the loop combinator *)

Lemma for_each_app {A S : Type} (body : S -> A -> result S) (xs ys : list A)
  (s : S) :
  for_each body (xs ++ ys) s = (s' <- for_each body xs s ;; for_each body ys s').
Proof.
  revert s. induction xs as [|x xs IH]; intros s; simpl; [reflexivity|].
  destruct (body s x) as [s'|e]; simpl; [apply IH|reflexivity].
Qed.

Lemma for_each_raise_kind {A S : Type} (body : S -> A -> result S) (e : exn)
  (xs : list A) :
  (forall s x e', In x xs -> body s x = Raise e' -> e' = e) ->
  forall s e', for_each body xs s = Raise e' -> e' = e.
Proof.
  induction xs as [|x xs IH]; intros Hkind s e'; simpl; [discriminate|].
  destruct (body s x) as [s'|e0] eqn:E; simpl.
  - apply IH. intros s0 x0 e0 Hin Hr.
    exact (Hkind s0 x0 e0 (or_intror Hin) Hr).
  - intros [= <-]. exact (Hkind s x e0 (or_introl eq_refl) E).
Qed.

(** ** More on the search *)

Lemma search_query_raise_kind (ref : list WordOccurrence) (q : Query)
  (hits : list Hit) (e : exn) :
  search_query (of_records ref) hits q = Raise e ->
  words q = [] /\ e = match ref with [] => KeyError | _ :: _ => IndexError end.
Proof.
  destruct (words q) as [|w ws] eqn:Ew.
  - rewrite (search_query_empty_query _ q hits Ew).
    intros [= <-]. split; [reflexivity|]. now destruct ref.
  - rewrite search_query_spec by (rewrite Ew; discriminate). discriminate.
Qed.

Lemma words_or_blank (queries : list Query) :
  Forall (fun q => words q <> []) queries \/ Exists (fun q => words q = []) queries.
Proof.
  induction queries as [|q queries [IH|IH]].
  - left. constructor.
  - destruct (words q) eqn:E.
    + right. now constructor.
    + left. constructor; [rewrite E; discriminate|exact IH].
  - right. now constructor 2.
Qed.

Lemma perform_kws_search_single (ref : list WordOccurrence) (q : Query) :
  words q <> [] ->
  perform_kws_search (of_records ref) [q] = Ok (query_hits ref q).
Proof.
  intros Hne.
  rewrite (perform_kws_search_spec ref [q]) by (constructor; [exact Hne|constructor]).
  cbn [flat_map]. now rewrite app_nil_r.
Qed.

Lemma no_member_nil {A : Type} (l : list A) : (forall x, ~ In x l) -> l = [].
Proof.
  destruct l as [|x l]; [reflexivity|]. intros H. now destruct (H x (or_introl eq_refl)).
Qed.

Lemma query_hits_nil (ref : list WordOccurrence) (q : Query) :
  (forall i, ~ qualifies ref (words q) i) -> query_hits ref q = [].
Proof.
  intros H. unfold query_hits.
  rewrite (no_member_nil (qualifying_offsets ref q)); [reflexivity|].
  intros i Hi. apply (H i). now apply qualifying_offsets_spec.
Qed.


Lemma window_app (ref ext : list WordOccurrence) (i L : nat) :
  (i + L <= List.length ref)%nat ->
  window (ref ++ ext) i L = window ref i L.
Proof.
  intros H. unfold window.
  rewrite skipn_app, firstn_app, length_skipn.
  replace (L - (List.length ref - i))%nat with 0%nat by lia.
  cbn [firstn]. now rewrite app_nil_r.
Qed.

Lemma flat_map_agree {A B : Type} (f g : A -> list B) (l : list A) :
  (forall x, In x l -> f x = g x) -> flat_map f l = flat_map g l.
Proof.
  induction l as [|x l IH]; intros H; simpl; [reflexivity|].
  rewrite (H x (or_introl eq_refl)), IH; [reflexivity|].
  intros y Hy. apply H. now right.
Qed.

(** ** Strings, [strip] and [split] *)

Lemma append_nil_r (s : string) : String.append s EmptyString = s.
Proof. induction s as [|c s IH]; simpl; [reflexivity|now rewrite IH]. Qed.

Lemma append_assoc (a b c : string) :
  String.append (String.append a b) c = String.append a (String.append b c).
Proof. induction a as [|x a IH]; simpl; [reflexivity|now rewrite IH]. Qed.

Lemma no_space_append (a b : string) :
  no_space (String.append a b) = no_space a && no_space b.
Proof.
  induction a as [|c a IH]; simpl; [reflexivity|].
  now rewrite IH, andb_assoc.
Qed.

Lemma is_token_no_space (s : string) : is_token s = true -> no_space s = true.
Proof. destruct s; [discriminate|trivial]. Qed.

Lemma is_token_snoc (w : string) (c : ascii) :
  no_space w = true -> Py.isspace c = false ->
  is_token (String.append w (String c EmptyString)) = true.
Proof.
  intros Hw Hc.
  assert (H : no_space (String.append w (String c EmptyString)) = true).
  { rewrite no_space_append, Hw. simpl. now rewrite Hc. }
  destruct w; simpl in *; exact H.
Qed.

(** Every string [split] returns is a token. *)
Lemma split_from_tokens (s : string) (cur : option string) :
  match cur with Some w => is_token w = true | None => True end ->
  Forall (fun t => is_token t = true) (Py.split_from cur s).
Proof.
  revert cur. induction s as [|c s IH]; intros cur Hcur; simpl.
  - destruct cur; repeat constructor; assumption.
  - destruct (Py.isspace c) eqn:Ec.
    + destruct cur; [constructor; [assumption|]|]; now apply IH.
    + destruct cur as [w|]; apply IH.
      * apply is_token_snoc; [now apply is_token_no_space|exact Ec].
      * simpl. now rewrite Ec.
Qed.

Lemma split_tokens (s : string) : Forall (fun t => is_token t = true) (Py.split s).
Proof. now apply split_from_tokens. Qed.

Lemma split_from_all_space (s : string) (cur : option string) :
  all_space s = true -> Py.split_from cur s = option_list cur.
Proof.
  revert cur. induction s as [|c s IH]; intros cur; simpl.
  - now destruct cur.
  - intros H. apply andb_true_iff in H as [-> Hs].
    destruct cur; now rewrite (IH None Hs).
Qed.

Lemma split_from_some_not_nil (s : string) (w : string) :
  Py.split_from (Some w) s <> [].
Proof.
  revert w. induction s as [|c s IH]; intros w; simpl; [discriminate|].
  destruct (Py.isspace c); [discriminate|apply IH].
Qed.

(** [split] returns nothing exactly on strings of white space only. *)
Lemma split_nil_iff (s : string) : Py.split s = [] <-> all_space s = true.
Proof.
  unfold Py.split. split.
  - induction s as [|c s IH]; simpl; [reflexivity|].
    destruct (Py.isspace c); simpl; [exact IH|].
    intros H. now apply split_from_some_not_nil in H.
  - intros H. now rewrite split_from_all_space.
Qed.

Lemma rstrip_nil_all_space (s : string) :
  Py.rstrip s = EmptyString -> all_space s = true.
Proof.
  induction s as [|c s IH]; simpl; [reflexivity|].
  destruct (Py.rstrip s); [|discriminate].
  destruct (Py.isspace c); [intros _; now apply IH|discriminate].
Qed.

Lemma split_from_rstrip (s : string) (cur : option string) :
  Py.split_from cur (Py.rstrip s) = Py.split_from cur s.
Proof.
  revert cur. induction s as [|c s IH]; intros cur; [reflexivity|].
  cbn [Py.rstrip]. destruct (Py.rstrip s) as [|c' t] eqn:Er.
  - pose proof (rstrip_nil_all_space s Er) as Hs.
    destruct (Py.isspace c) eqn:Ec; simpl; rewrite Ec.
    + destruct cur; now rewrite (split_from_all_space s None Hs).
    + destruct cur; now rewrite split_from_all_space.
  - rewrite <- Er in *. cbn [Py.split_from].
    destruct (Py.isspace c); destruct cur; now rewrite IH.
Qed.

Lemma split_lstrip (s : string) : Py.split (Py.lstrip s) = Py.split s.
Proof.
  unfold Py.split. induction s as [|c s IH]; [reflexivity|].
  simpl. destruct (Py.isspace c) eqn:Ec; [exact IH|].
  simpl. now rewrite Ec.
Qed.

(** Stripping before splitting changes nothing. *)
Lemma split_strip (s : string) : Py.split (Py.strip s) = Py.split s.
Proof.
  unfold Py.strip, Py.split. rewrite split_from_rstrip. apply split_lstrip.
Qed.

Lemma fields_split (line : string) : fields line = Py.split line.
Proof. apply split_strip. Qed.

(** ** More on reading the transcript *)

Lemma in_firstn_gen {A : Type} (n : nat) (l : list A) (y : A) :
  In y (firstn n l) -> In y l.
Proof.
  revert l. induction n as [|n IH]; intros [|x l]; simpl; try contradiction.
  intros [->|H]; [now left|right; now apply IH].
Qed.

Section ParseCtmMore.

Variable float : string -> option Q.

(** What a line adds does not depend on what was read before it. *)
Lemma parse_ctm_line_shape (index : list WordOccurrence) (line : string) :
  parse_ctm_line float index line
  = (recs <- parse_ctm_line float [] line ;; Ok (index ++ recs)).
Proof.
  unfold parse_ctm_line, to_float.
  destruct (List.length (Py.split (Py.strip line)) <? 6)%nat;
    [cbn [bind]; now rewrite app_nil_r|].
  destruct (firstn 6 (Py.split (Py.strip line)))
    as [|f [|c [|st [|du [|w [|co [|x t]]]]]]]; try reflexivity.
  destruct (float st); cbn [bind]; [|reflexivity].
  destruct (float du); cbn [bind]; [|reflexivity].
  destruct (float co); cbn [bind]; reflexivity.
Qed.

Lemma parse_ctm_loop_shape (lines : list string) (index : list WordOccurrence) :
  for_each (parse_ctm_line float) lines index
  = (recs <- for_each (parse_ctm_line float) lines [] ;; Ok (index ++ recs)).
Proof.
  revert index. induction lines as [|line lines IH]; intros index.
  - cbn [for_each bind]. now rewrite app_nil_r.
  - cbn [for_each]. rewrite (parse_ctm_line_shape index line).
    destruct (parse_ctm_line float [] line) as [r1|e]; cbn [bind]; [|reflexivity].
    rewrite (IH (index ++ r1)), (IH r1).
    destruct (for_each (parse_ctm_line float) lines []) as [r2|e]; cbn [bind];
      [now rewrite app_assoc|reflexivity].
Qed.

Lemma parse_ctm_line_tokens (index index' : list WordOccurrence) (line : string) :
  parse_ctm_line float index line = Ok index' ->
  Forall token_record index -> Forall token_record index'.
Proof.
  unfold parse_ctm_line, to_float. intros Hrun Hidx.
  destruct (List.length (Py.split (Py.strip line)) <? 6)%nat;
    [now injection Hrun as <-|].
  pose proof (split_tokens (Py.strip line)) as Htok.
  rewrite Forall_forall in Htok.
  assert (Hsub : forall x, In x (firstn 6 (Py.split (Py.strip line))) ->
                           is_token x = true).
  { intros x Hx. apply Htok. now apply (in_firstn_gen 6). }
  destruct (firstn 6 (Py.split (Py.strip line)))
    as [|f [|c [|st [|du [|w [|co [|x t]]]]]]]; try discriminate.
  destruct (float st); cbn [bind] in Hrun; [|discriminate].
  destruct (float du); cbn [bind] in Hrun; [|discriminate].
  destruct (float co); cbn [bind] in Hrun; [|discriminate].
  injection Hrun as <-. apply Forall_app. split; [exact Hidx|].
  constructor; [|constructor]. unfold token_record. cbn [file_id channel word].
  repeat split; apply Hsub; simpl; tauto.
Qed.

Lemma parse_ctm_loop_tokens (lines : list string)
  (index index' : list WordOccurrence) :
  for_each (parse_ctm_line float) lines index = Ok index' ->
  Forall token_record index -> Forall token_record index'.
Proof.
  revert index. induction lines as [|line lines IH]; intros index; cbn [for_each].
  - now intros [= <-].
  - destruct (parse_ctm_line float index line) as [i1|e] eqn:E; cbn [bind];
      [|discriminate].
    intros Hrun Hidx. apply (IH i1 Hrun).
    exact (parse_ctm_line_tokens _ _ _ E Hidx).
Qed.

End ParseCtmMore.

(** ** Reading the queries *)

Lemma parse_queries_kw_ok (queries queries' : list Query) (kw : KwElement) :
  parse_queries_kw queries kw = Ok queries' ->
  exists q, queries' = queries ++ [q] /\ loaded_as kw q.
Proof.
  unfold parse_queries_kw. destruct (kw_kwtext kw) as [text|] eqn:E; [|discriminate].
  intros [= <-]. eexists. split; [reflexivity|].
  split; [reflexivity|]. exists text. cbn [phrase words].
  rewrite split_strip.
  split; [exact E|split; [reflexivity|split; [reflexivity|split]]].
  - apply split_tokens.
  - apply split_nil_iff.
Qed.

Lemma parse_queries_loop_ok (kws : list KwElement) (acc queries : list Query) :
  for_each parse_queries_kw kws acc = Ok queries ->
  exists new, queries = acc ++ new /\ Forall2 loaded_as kws new.
Proof.
  revert acc. induction kws as [|kw kws IH]; intros acc; cbn [for_each].
  - intros [= <-]. exists []. split; [now rewrite app_nil_r|constructor].
  - destruct (parse_queries_kw acc kw) as [acc'|e] eqn:E; cbn [bind]; [|discriminate].
    intros Hrun. destruct (parse_queries_kw_ok _ _ _ E) as (q & -> & Hq).
    destruct (IH _ Hrun) as (new & -> & Hnew).
    exists (q :: new). split; [now rewrite <- app_assoc|now constructor].
Qed.

Lemma parse_queries_kw_raise (queries : list Query) (kw : KwElement) (e : exn) :
  parse_queries_kw queries kw = Raise e ->
  kw_kwtext kw = None /\ e = AttributeError.
Proof.
  unfold parse_queries_kw. destruct (kw_kwtext kw); [discriminate|].
  intros [= <-]. now split.
Qed.

Lemma text_or_none (kws : list KwElement) :
  Forall (fun kw => kw_kwtext kw <> None) kws
  \/ Exists (fun kw => kw_kwtext kw = None) kws.
Proof.
  induction kws as [|kw kws [IH|IH]].
  - left. constructor.
  - destruct (kw_kwtext kw) eqn:E.
    + left. constructor; [rewrite E; discriminate|exact IH].
    + right. now constructor.
  - right. now constructor 2.
Qed.

Lemma parse_queries_loop_total (kws : list KwElement) (acc : list Query) :
  Forall (fun kw => kw_kwtext kw <> None) kws ->
  exists queries, for_each parse_queries_kw kws acc = Ok queries.
Proof.
  intros Hall. revert acc. induction Hall as [|kw kws Hkw _ IH]; intros acc;
    cbn [for_each]; [now exists acc|].
  unfold parse_queries_kw at 1. destruct (kw_kwtext kw); [|congruence].
  cbn [bind]. apply IH.
Qed.

(** ** The lines of the CTM output *)

Lemma split_from_run (t w s : string) :
  no_space t = true ->
  Py.split_from (Some w) (String.append t s)
  = Py.split_from (Some (String.append w t)) s.
Proof.
  revert w. induction t as [|c t IH]; intros w Ht; simpl.
  - now rewrite append_nil_r.
  - simpl in Ht. apply andb_true_iff in Ht as [Hc Ht].
    apply negb_true_iff in Hc. rewrite Hc, (IH _ Ht), append_assoc. reflexivity.
Qed.

(** A token followed by a white-space character is the next field. *)
Lemma split_token_then_space (t s : string) (c : ascii) :
  is_token t = true -> Py.isspace c = true ->
  Py.split_from None (String.append t (String c s)) = t :: Py.split_from None s.
Proof.
  intros Ht Hc. destruct t as [|x t]; [discriminate|].
  simpl in Ht. apply andb_true_iff in Ht as [Hx Ht]. apply negb_true_iff in Hx.
  simpl. rewrite Hx, (split_from_run t _ _ Ht). simpl. now rewrite Hc.
Qed.

Lemma fields_ctm_line (fmt2 fmt6 : Q -> string) (hit : Hit) :
  writable fmt2 fmt6 hit ->
  fields (ctm_line fmt2 fmt6 hit) = ctm_fields fmt2 fmt6 hit.
Proof.
  unfold writable, ctm_fields. intros H.
  inversion H as [|? ? T1 H1]; subst. inversion H1 as [|? ? T2 H2]; subst.
  inversion H2 as [|? ? T3 H3]; subst. inversion H3 as [|? ? T4 H4]; subst.
  inversion H4 as [|? ? T5 H5]; subst. inversion H5 as [|? ? T6 _]; subst.
  rewrite fields_split. unfold Py.split, ctm_line, newline.
  cbn [String.append].
  rewrite !split_token_then_space by (assumption || reflexivity).
  reflexivity.
Qed.

Lemma Forall2_map_left {A B C : Type} (P : B -> C -> Prop) (f : A -> B)
  (xs : list A) (ys : list C) :
  Forall2 P (map f xs) ys -> Forall2 (fun x y => P (f x) y) xs ys.
Proof.
  revert ys. induction xs as [|x xs IH]; intros ys H; inversion H; subst;
    constructor; auto.
Qed.

Lemma Forall2_impl_in {A B : Type} (P Q : A -> B -> Prop) (xs : list A)
  (ys : list B) :
  (forall x y, In x xs -> P x y -> Q x y) ->
  Forall2 P xs ys -> Forall2 Q xs ys.
Proof.
  intros H HP. induction HP as [|x y xs ys Hxy _ IH]; constructor.
  - apply H; [now left|exact Hxy].
  - apply IH. intros a b Ha. apply H. now right.
Qed.

(** ** Grouping by kwid *)

Lemma string_lt_trans (a b c : string) :
  string_lt a b -> string_lt b c -> string_lt a c.
Proof.
  unfold string_lt. intros Hab Hbc.
  apply String_as_OT.cmp_lt in Hab. apply String_as_OT.cmp_lt in Hbc.
  apply String_as_OT.cmp_lt. exact (String_as_OT.lt_trans _ _ _ Hab Hbc).
Qed.

Lemma string_lt_irrefl (a : string) : ~ string_lt a a.
Proof.
  unfold string_lt. intros H.
  pose proof (String.compare_antisym a a) as Ha. rewrite H in Ha. discriminate.
Qed.

Lemma string_gt_lt (a b : string) : String.compare a b = Gt -> string_lt b a.
Proof.
  unfold string_lt. intros H. rewrite String.compare_antisym, H. reflexivity.
Qed.

Lemma insert_key_In (k x : string) (ks : list string) :
  In x (insert_key k ks) <-> x = k \/ In x ks.
Proof.
  induction ks as [|y ks IH]; simpl.
  - intuition.
  - destruct (String.compare k y) eqn:E; simpl.
    + apply String.compare_eq_iff in E. subst y. intuition.
    + intuition.
    + rewrite IH. intuition.
Qed.

Lemma insert_key_sorted (k : string) (ks : list string) :
  StronglySorted string_lt ks -> StronglySorted string_lt (insert_key k ks).
Proof.
  induction 1 as [|y ks Hs IH Hy]; simpl.
  - repeat constructor.
  - destruct (String.compare k y) eqn:E.
    + now constructor.
    + constructor; [now constructor|].
      constructor; [exact E|].
      rewrite Forall_forall in *. intros z Hz.
      exact (string_lt_trans _ _ _ E (Hy z Hz)).
    + constructor; [exact IH|].
      rewrite Forall_forall in *. intros z Hz.
      apply insert_key_In in Hz as [->|Hz]; [now apply string_gt_lt|now apply Hy].
Qed.

Lemma sorted_keys_In (x : string) (l : list string) :
  In x (sorted_keys l) <-> In x l.
Proof.
  unfold sorted_keys. induction l as [|k l IH]; simpl; [reflexivity|].
  rewrite insert_key_In, IH. intuition.
Qed.

Lemma sorted_keys_sorted (l : list string) : StronglySorted string_lt (sorted_keys l).
Proof.
  unfold sorted_keys. induction l as [|k l IH]; simpl; [constructor|].
  now apply insert_key_sorted.
Qed.

Lemma sorted_NoDup (ks : list string) : StronglySorted string_lt ks -> NoDup ks.
Proof.
  induction 1 as [|k ks _ IH Hk]; constructor; [|exact IH].
  intros Hin. rewrite Forall_forall in Hk.
  exact (string_lt_irrefl k (Hk k Hin)).
Qed.

Lemma group_of_other (hits : list Hit) (h : Hit) (k : string) :
  hit_kwid h <> k -> group_of (h :: hits) k = group_of hits k.
Proof.
  intros Hne. unfold group_of. cbn [filter].
  destruct (String.eqb_spec (hit_kwid h) k); [contradiction|reflexivity].
Qed.

Lemma group_of_same (hits : list Hit) (h : Hit) :
  group_of (h :: hits) (hit_kwid h) = h :: group_of hits (hit_kwid h).
Proof. unfold group_of. cbn [filter]. now rewrite String.eqb_refl. Qed.

Lemma groups_skip (hits : list Hit) (h : Hit) (ks : list string) :
  ~ In (hit_kwid h) ks ->
  flat_map (group_of (h :: hits)) ks = flat_map (group_of hits) ks.
Proof.
  intros Hnot. apply flat_map_agree. intros k Hk.
  apply group_of_other. intros E. apply Hnot. now rewrite E.
Qed.

(** Grouping by distinct keys that cover the kwids spreads the hits
    over the groups without losing or repeating any. *)
Lemma groups_permutation (hits : list Hit) (ks : list string) :
  NoDup ks -> (forall h, In h hits -> In (hit_kwid h) ks) ->
  Permutation (flat_map (group_of hits) ks) hits.
Proof.
  intros Hnd. induction hits as [|h hits IH]; intros Hcover.
  - unfold group_of. simpl. clear. induction ks; simpl; [constructor|assumption].
  - destruct (in_split _ _ (Hcover h (or_introl eq_refl))) as (ks1 & ks2 & E).
    subst ks. apply NoDup_remove_2 in Hnd as Hnot.
    rewrite !flat_map_app in *. cbn [flat_map] in *.
    rewrite group_of_same.
    rewrite !groups_skip by (intros H; apply Hnot, in_or_app; tauto).
    cbn [app]. apply Permutation_sym, Permutation_cons_app, Permutation_sym.
    apply IH. intros h' Hh'. apply Hcover. now right.
Qed.

(** ** From the files to the search *)

Lemma Forall2_in_left {A B : Type} (P : A -> B -> Prop) (xs : list A)
  (ys : list B) (x : A) :
  Forall2 P xs ys -> In x xs -> exists y, In y ys /\ P x y.
Proof.
  induction 1 as [|a b xs ys Hab _ IH]; intros Hin; [contradiction|].
  destruct Hin as [->|Hin].
  - exists b. split; [now left|exact Hab].
  - destruct (IH Hin) as (y & Hy & Hxy). exists y. split; [now right|exact Hxy].
Qed.

Lemma parse_ctm_frame (float : string -> option Q) (lines : list string)
  (index_df : DataFrame) :
  parse_ctm float lines = Ok index_df -> index_df = of_records (rows index_df).
Proof.
  unfold parse_ctm.
  destruct (for_each (parse_ctm_line float) lines []); cbn [bind]; [|discriminate].
  now intros [= <-].
Qed.

Lemma perform_kws_search_blank (ref : list WordOccurrence) (queries : list Query)
  (q : Query) :
  In q queries -> words q = [] ->
  perform_kws_search (of_records ref) queries
  = Raise match ref with [] => KeyError | _ :: _ => IndexError end.
Proof.
  intros Hin Hq.
  destruct (perform_kws_search_empty_query (of_records ref) queries q Hin Hq)
    as [e He].
  rewrite He. f_equal. revert He. unfold perform_kws_search.
  apply for_each_raise_kind. intros s q' e' _ Hr.
  now apply search_query_raise_kind in Hr.
Qed.

(** * Further theorems *)

(** X1. The search raises exactly when some query has no words; the
    exception is [IndexError] on a reference with records and
    [KeyError] on an empty one. *)
Theorem perform_kws_search_raises_iff (ref : list WordOccurrence)
  (queries : list Query) (e : exn) :
  perform_kws_search (of_records ref) queries = Raise e <->
  Exists (fun q => words q = []) queries
  /\ e = match ref with [] => KeyError | _ :: _ => IndexError end.
Proof.
  assert (Hkind : forall e', perform_kws_search (of_records ref) queries = Raise e' ->
                  e' = match ref with [] => KeyError | _ :: _ => IndexError end).
  { intros e'. unfold perform_kws_search. apply for_each_raise_kind.
    intros s q e0 _ Hr. now apply search_query_raise_kind in Hr. }
  split.
  - intros Hr. split; [|now apply Hkind].
    destruct (words_or_blank queries) as [Hall|Hex]; [|exact Hex].
    rewrite (perform_kws_search_spec ref queries Hall) in Hr. discriminate.
  - intros [Hex ->]. apply Exists_exists in Hex as (q & Hin & Hq).
    destruct (perform_kws_search_empty_query (of_records ref) queries q Hin Hq)
      as [e' He'].
    now rewrite He', (Hkind e' He').
Qed.

(** X2. Queries do not influence one another: searching a list of
    queries made of two parts returns the hits of the first part
    followed by the hits of the second. *)
Theorem perform_kws_search_app (ref : list WordOccurrence)
  (queries1 queries2 : list Query) (hits1 hits2 : list Hit) :
  perform_kws_search (of_records ref) queries1 = Ok hits1 ->
  perform_kws_search (of_records ref) queries2 = Ok hits2 ->
  perform_kws_search (of_records ref) (queries1 ++ queries2) = Ok (hits1 ++ hits2).
Proof.
  intros H1 H2.
  pose proof (perform_kws_search_ok_words _ _ _ H1) as W1.
  pose proof (perform_kws_search_ok_words _ _ _ H2) as W2.
  rewrite (perform_kws_search_spec ref _ W1) in H1.
  rewrite (perform_kws_search_spec ref _ W2) in H2.
  injection H1 as <-. injection H2 as <-.
  rewrite perform_kws_search_spec by (apply Forall_app; now split).
  now rewrite flat_map_app.
Qed.

Lemma perform_kws_search_app_example :
  perform_kws_search (of_records scenario_A_ref)
    ([scenario_A_query] ++ [scenario_B_query])
  = Ok ([scenario_A_hit] ++ []).
Proof.
  apply (perform_kws_search_app scenario_A_ref [scenario_A_query]
           [scenario_B_query] [scenario_A_hit] []); reflexivity.
Defined.



(** X4. A phrase with a word that no record of the reference carries
    has no hit. *)
Theorem absent_word_no_hits (ref : list WordOccurrence) (q : Query) (w : string) :
  In w (words q) ->
  ~ In w (map word ref) ->
  perform_kws_search (of_records ref) [q] = Ok [].
Proof.
  intros Hw Habs.
  assert (Hne : words q <> []) by (intros E; rewrite E in Hw; contradiction).
  rewrite (perform_kws_search_single ref q Hne). f_equal.
  apply query_hits_nil. intros i (Hle & Htok & _).
  apply In_nth_error in Hw as [k Hk].
  assert (Hklt : (k < List.length (words q))%nat)
    by (apply nth_error_Some; congruence).
  destruct (nth_error ref (i + k)) as [r|] eqn:Er.
  - specialize (Htok k r Hklt Er). rewrite Hk in Htok. injection Htok as ->.
    apply Habs, in_map. now apply (nth_error_In ref (i + k)).
  - apply nth_error_None in Er. lia.
Qed.

Lemma absent_word_no_hits_scenario_B :
  perform_kws_search (of_records scenario_A_ref) [scenario_B_query] = Ok [].
Proof.
  apply (absent_word_no_hits scenario_A_ref scenario_B_query "work").
  - right. left. reflexivity.
  - intros [H|[H|[]]]; discriminate.
Defined.

(** X6. A phrase of [L] words has at most [N + 1 - L] hits in a
    reference of [N] records. *)
Theorem hit_count_bound (ref : list WordOccurrence) (q : Query) (hits : list Hit) :
  perform_kws_search (of_records ref) [q] = Ok hits ->
  (List.length hits <= List.length ref + 1 - List.length (words q))%nat.
Proof.
  intros Hrun.
  pose proof (perform_kws_search_ok_words _ _ _ Hrun) as Hw.
  inversion Hw as [|? ? Hne _]; subst.
  rewrite (perform_kws_search_single ref q Hne) in Hrun. injection Hrun as <-.
  rewrite <- (Forall2_same_length _ _ _ (query_hits_Forall2 ref q Hne)).
  unfold qualifying_offsets.
  eapply Nat.le_trans; [apply filter_length_le|].
  unfold Py.range. rewrite length_seq. lia.
Qed.

Lemma hit_count_bound_repeated :
  (List.length (query_hits repeated_ref repeated_query)
   <= List.length repeated_ref + 1 - List.length (words repeated_query))%nat.
Proof.
  apply (hit_count_bound repeated_ref repeated_query). reflexivity.
Defined.

(** X7. Records appended to the reference leave the earlier hits of a
    query as they were: the hits over the longer reference begin with
    the hits over the shorter one. *)
Theorem reference_extension_keeps_hits (ref ext : list WordOccurrence) (q : Query)
  (hits : list Hit) :
  perform_kws_search (of_records ref) [q] = Ok hits ->
  exists more,
    perform_kws_search (of_records (ref ++ ext)) [q] = Ok (hits ++ more).
Proof.
  intros Hrun.
  pose proof (perform_kws_search_ok_words _ _ _ Hrun) as Hw.
  inversion Hw as [|? ? Hne _]; subst.
  rewrite (perform_kws_search_single ref q Hne) in Hrun. injection Hrun as <-.
  rewrite (perform_kws_search_single (ref ++ ext) q Hne).
  set (L := List.length (words q)).
  set (n := Z.to_nat (Z.of_nat (List.length ref) - Z.of_nat L + 1)).
  set (n' := Z.to_nat (Z.of_nat (List.length (ref ++ ext)) - Z.of_nat L + 1)).
  assert (Hn : n' = (n + (n' - n))%nat).
  { unfold n, n'. rewrite length_app. lia. }
  assert (Hin : forall i, In i (seq 0 n) -> (i + L <= List.length ref)%nat).
  { intros i Hi. apply in_seq in Hi. unfold n in Hi. lia. }
  exists (flat_map (fun i => option_list (hit_at (ref ++ ext) q i))
            (filter (fun i => window_ok q (window (ref ++ ext) i L))
               (seq (0 + n) (n' - n)))).
  f_equal. unfold query_hits, qualifying_offsets, Py.range. fold L n n'.
  rewrite Hn at 1. rewrite seq_app, filter_app, flat_map_app. f_equal.
  rewrite (filter_ext_in _ (fun i => window_ok q (window ref i L)) (seq 0 n))
    by (intros i Hi; now rewrite window_app by now apply Hin).
  apply flat_map_agree. intros i Hi. apply filter_In in Hi as [Hi _].
  unfold hit_at. fold L. now rewrite window_app by now apply Hin.
Qed.

Lemma reference_extension_keeps_hits_example :
  exists more,
    perform_kws_search (of_records (scenario_A_ref ++ scenario_A_ref))
      [scenario_A_query]
    = Ok ([scenario_A_hit] ++ more).
Proof.
  apply (reference_extension_keeps_hits scenario_A_ref scenario_A_ref
           scenario_A_query [scenario_A_hit]).
  reflexivity.
Defined.

(** X8. Every record [parse_ctm] returns has a file id, a channel and
    a word that are non-empty and free of white space. *)
Theorem parse_ctm_fields_are_tokens (float : string -> option Q)
  (lines : list string) (index_df : DataFrame) :
  parse_ctm float lines = Ok index_df ->
  Forall (fun r => is_token (file_id r) = true
                   /\ is_token (channel r) = true
                   /\ is_token (word r) = true) (rows index_df).
Proof.
  unfold parse_ctm.
  destruct (for_each (parse_ctm_line float) lines []) as [index|e] eqn:E;
    cbn [bind]; [|discriminate].
  intros [= <-]. cbn [rows of_records].
  exact (parse_ctm_loop_tokens float lines [] index E (Forall_nil _)).
Qed.

Lemma parse_ctm_fields_are_tokens_scenario_D :
  Forall (fun r => is_token (file_id r) = true
                   /\ is_token (channel r) = true
                   /\ is_token (word r) = true)
    (rows (of_records scenario_A_ref)).
Proof.
  apply (parse_ctm_fields_are_tokens Decimal.float scenario_D_lines).
  reflexivity.
Defined.

(** X9. A line of fewer than six fields can be put in or taken out
    anywhere without changing what [parse_ctm] answers, be it a frame or
    an error. *)
Theorem parse_ctm_short_line_ignored (float : string -> option Q)
  (before after : list string) (line : string) :
  (List.length (fields line) < 6)%nat ->
  parse_ctm float (before ++ line :: after) = parse_ctm float (before ++ after).
Proof.
  intros Hshort. unfold parse_ctm. f_equal.
  rewrite !for_each_app.
  destruct (for_each (parse_ctm_line float) before []) as [index|e];
    cbn [bind for_each]; [|reflexivity].
  now rewrite (parse_ctm_line_short float index line Hshort).
Qed.

Lemma parse_ctm_short_line_ignored_example :
  parse_ctm Decimal.float (["f1 1 0.0 0.2 go 0.9"] ++ "header" :: bad_number_lines)
  = parse_ctm Decimal.float (["f1 1 0.0 0.2 go 0.9"] ++ bad_number_lines).
Proof.
  apply (parse_ctm_short_line_ignored Decimal.float). vm_compute. lia.
Defined.

(** X10. Reading two files one after the other as one file gives the
    records of the first followed by the records of the second. *)
Theorem parse_ctm_app (float : string -> option Q) (lines1 lines2 : list string)
  (df1 df2 : DataFrame) :
  parse_ctm float lines1 = Ok df1 ->
  parse_ctm float lines2 = Ok df2 ->
  parse_ctm float (lines1 ++ lines2) = Ok (of_records (rows df1 ++ rows df2)).
Proof.
  unfold parse_ctm. rewrite for_each_app.
  destruct (for_each (parse_ctm_line float) lines1 []) as [r1|e1];
    cbn [bind]; [|discriminate].
  intros [= <-]. rewrite (parse_ctm_loop_shape float lines2 r1).
  destruct (for_each (parse_ctm_line float) lines2 []) as [r2|e2];
    cbn [bind]; [|discriminate].
  intros [= <-]. reflexivity.
Qed.

Lemma parse_ctm_app_example :
  parse_ctm Decimal.float (scenario_D_lines ++ scenario_D_lines)
  = Ok (of_records (rows (of_records scenario_A_ref)
                    ++ rows (of_records scenario_A_ref))).
Proof.
  apply (parse_ctm_app Decimal.float scenario_D_lines scenario_D_lines);
    reflexivity.
Defined.

(** X11. [parse_queries] raises exactly when some [kw] element has no
    text (an empty or missing [kwtext]); the exception is
    [AttributeError]. *)
Theorem parse_queries_raises_iff (kws : list KwElement) (e : exn) :
  parse_queries kws = Raise e <->
  Exists (fun kw => kw_kwtext kw = None) kws /\ e = AttributeError.
Proof.
  unfold parse_queries.
  assert (Hkind : forall e', for_each parse_queries_kw kws [] = Raise e' ->
                             e' = AttributeError).
  { apply for_each_raise_kind. intros s kw e' _ Hr.
    now apply parse_queries_kw_raise in Hr. }
  split.
  - intros Hr. split; [|now apply Hkind].
    destruct (text_or_none kws) as [Hall|Hex]; [|exact Hex].
    destruct (parse_queries_loop_total kws [] Hall) as [qs Hqs]. congruence.
  - intros [Hex ->]. apply Exists_exists in Hex as (kw & Hin & Hkw).
    destruct (for_each_raises parse_queries_kw kws kw Hin) with (s := @nil Query)
      as [e' He'].
    { intros s. exists AttributeError. unfold parse_queries_kw. now rewrite Hkw. }
    now rewrite He', (Hkind e' He').
Qed.

(** X12. When [parse_queries] returns, it returns one query per [kw]
    element, in order, with the element's [kwid]; the phrase is the
    stripped text; the words are the white-space split of the text as it
    stands, each a non-empty string free of white space; and there is
    no word exactly when the text is white space only. *)
Theorem parse_queries_loads (kws : list KwElement) (queries : list Query) :
  parse_queries kws = Ok queries ->
  Forall2 loaded_as kws queries.
Proof.
  intros Hrun. destruct (parse_queries_loop_ok kws [] queries Hrun) as (new & -> & H).
  exact H.
Qed.

Lemma parse_queries_loads_example :
  Forall2 loaded_as [scenario_A_kw; blank_kw] [scenario_A_query; blank_query].
Proof.
  apply (parse_queries_loads [scenario_A_kw; blank_kw]). reflexivity.
Defined.

(** X13. The line written for a hit splits into exactly six fields:
    file id, channel, start time and duration in the two-decimal
    format, kwid, and score in the six-decimal format, provided these
    six strings are tokens; so the file has one six-field line per hit,
    in the order of the hits. *)
Theorem ctm_lines_have_six_fields (fmt2 fmt6 : Q -> string) (hits : list Hit) :
  Forall (writable fmt2 fmt6) hits ->
  map fields (ctm_lines fmt2 fmt6 (hits_frame hits))
  = map (ctm_fields fmt2 fmt6) hits.
Proof.
  intros H. unfold ctm_lines. cbn [hits_rows hits_frame].
  rewrite map_map. apply map_ext_in. intros h Hh.
  apply fields_ctm_line. rewrite Forall_forall in H. now apply H.
Qed.

Lemma ctm_lines_have_six_fields_scenario_A :
  map fields (ctm_lines (Fixed.format 2) (Fixed.format 6)
                (hits_frame [scenario_A_hit]))
  = map (ctm_fields (Fixed.format 2) (Fixed.format 6)) [scenario_A_hit].
Proof.
  apply (ctm_lines_have_six_fields (Fixed.format 2) (Fixed.format 6)
           [scenario_A_hit]).
  repeat constructor.
Defined.

(** Scenario E: the line written for the hit of scenario A. *)
Example scenario_E :
  ctm_lines (Fixed.format 2) (Fixed.format 6) (hits_frame [scenario_A_hit])
  = [String.append "f1 1 0.00 0.50 K1 0.850000" newline].
Proof. reflexivity. Qed.

(** X14. The CTM output is itself a transcript [parse_ctm] reads: when
    the fields of every hit are tokens and [float] reads its formatted
    numbers, reading the written lines gives one record per hit, in
    order, with the hit's file id and channel, the kwid as word, and
    the formatted start time, duration and score as numbers. *)
Theorem ctm_output_reads_back (float : string -> option Q)
  (fmt2 fmt6 : Q -> string) (hits : list Hit) :
  Forall (writable fmt2 fmt6) hits ->
  Forall (readable float fmt2 fmt6) hits ->
  exists recs,
    parse_ctm float (ctm_lines fmt2 fmt6 (hits_frame hits)) = Ok (of_records recs)
    /\ Forall2 (read_back float fmt2 fmt6) hits recs.
Proof.
  intros Hw Hr. unfold parse_ctm.
  assert (Hfields : map fields (ctm_lines fmt2 fmt6 (hits_frame hits))
                    = map (ctm_fields fmt2 fmt6) hits).
  { unfold ctm_lines. cbn [hits_rows hits_frame].
    rewrite map_map. apply map_ext_in. intros h Hh.
    apply fields_ctm_line. rewrite Forall_forall in Hw. now apply Hw. }
  destruct (parse_ctm_loop_ok float (ctm_lines fmt2 fmt6 (hits_frame hits)))
    with (index := @nil WordOccurrence) as (recs & -> & Hrecs).
  { intros line Hin _. unfold ctm_lines in Hin. cbn [hits_rows hits_frame] in Hin.
    apply in_map_iff in Hin as (h & <- & Hh).
    rewrite Forall_forall in Hw, Hr.
    rewrite (fields_ctm_line fmt2 fmt6 h (Hw h Hh)).
    exact (Hr h Hh). }
  exists recs. split; [reflexivity|].
  unfold record_lines in Hrecs. rewrite Hfields in Hrecs.
  rewrite forallb_filter_id in Hrecs.
  2:{ apply forallb_forall. intros parts Hp.
      apply in_map_iff in Hp as (h & <- & _). reflexivity. }
  apply Forall2_map_left in Hrecs.
  revert Hrecs. apply Forall2_impl_in.
  intros h r _ (H0 & H1 & H2 & H3 & H4 & H5). unfold read_back.
  cbn [ctm_fields nth] in *. repeat split; assumption.
Qed.

Lemma ctm_output_reads_back_scenario_A :
  exists recs,
    parse_ctm Decimal.float
      (ctm_lines (Fixed.format 2) (Fixed.format 6) (hits_frame [scenario_A_hit]))
    = Ok (of_records recs)
    /\ Forall2 (read_back Decimal.float (Fixed.format 2) (Fixed.format 6))
         [scenario_A_hit] recs.
Proof.
  apply (ctm_output_reads_back Decimal.float (Fixed.format 2) (Fixed.format 6)
           [scenario_A_hit]).
  - repeat constructor.
  - repeat constructor; vm_compute; discriminate.
Defined.

(** X15. With at least one hit, [save_hits_to_xml] builds a [kwslist]
    root whose children are one [detected_kwlist] per distinct kwid, in
    strictly ascending order of kwid; each holds, in their original
    order, the hits of that kwid and is not empty; and every hit is
    under exactly one of them. *)
Theorem xml_tree_groups (str_float : Q -> string) (hits : list Hit)
  (kwlist_filename language : string) :
  hits <> [] ->
  exists groups,
    xml_tree str_float (hits_frame hits) kwlist_filename language
    = Ok (mkElement "kwslist"
            [("kwlist_filename", kwlist_filename); ("language", language);
             ("system_id", "")] None
            (map (detected_kwlist str_float) groups))
    /\ StronglySorted string_lt (map fst groups)
    /\ Forall (fun g => snd g <> []
                        /\ snd g = filter (fun h => String.eqb (hit_kwid h) (fst g)) hits)
         groups
    /\ Permutation (flat_map snd groups) hits.
Proof.
  intros Hne.
  set (ks := sorted_keys (map hit_kwid hits)).
  exists (map (fun k => (k, group_of hits k)) ks).
  assert (Hcols : hits_has_columns (hits_frame hits) = true)
    by (destruct hits; [contradiction|reflexivity]).
  split; [|split; [|split]].
  - unfold xml_tree, groupby_kwid. rewrite Hcols. reflexivity.
  - rewrite map_map. cbn [fst]. rewrite map_id. apply sorted_keys_sorted.
  - apply Forall_forall. intros g Hg.
    apply in_map_iff in Hg as (k & <- & Hk). cbn [fst snd].
    split; [|reflexivity].
    apply sorted_keys_In, in_map_iff in Hk as (h & <- & Hh).
    intros E. assert (Hin : In h (group_of hits (hit_kwid h))).
    { apply filter_In. split; [exact Hh|apply String.eqb_refl]. }
    rewrite E in Hin. contradiction.
  - rewrite flat_map_concat_map, map_map. cbn [snd].
    rewrite <- flat_map_concat_map.
    apply groups_permutation.
    + apply sorted_NoDup, sorted_keys_sorted.
    + intros h Hh. apply sorted_keys_In. now apply in_map.
Qed.

Lemma xml_tree_groups_mixed :
  exists groups,
    xml_tree (Fixed.format 1) (hits_frame mixed_hits) default_kwlist_filename
      default_language
    = Ok (mkElement "kwslist"
            [("kwlist_filename", default_kwlist_filename);
             ("language", default_language); ("system_id", "")] None
            (map (detected_kwlist (Fixed.format 1)) groups))
    /\ StronglySorted string_lt (map fst groups)
    /\ Forall (fun g => snd g <> []
                        /\ snd g = filter (fun h => String.eqb (hit_kwid h) (fst g))
                                     mixed_hits)
         groups
    /\ Permutation (flat_map snd groups) mixed_hits.
Proof.
  apply (xml_tree_groups (Fixed.format 1) mixed_hits). discriminate.
Defined.

(** The kwids of [mixed_hits] come out as K1, K10, K2: strings compare
    character by character. *)
Example mixed_hits_key_order :
  option_map (map fst) (match groupby_kwid (hits_frame mixed_hits) with
                        | Ok g => Some g
                        | Raise _ => None
                        end)
  = Some ["K1"; "K10"; "K2"].
Proof. reflexivity. Qed.

(** X16. A failure while loading or searching leaves the files as they
    were: [main] raises the same exception and writes nothing. *)
Theorem main_failure_writes_nothing (fmt2 fmt6 str_float : Q -> string)
  (float : string -> option Q) (ctm_file : list string)
  (query_file : list KwElement) (e : exn) (fs : Files) :
  load_and_search float ctm_file query_file = Raise e ->
  main fmt2 fmt6 str_float float ctm_file query_file fs = (fs, Raise e).
Proof.
  unfold load_and_search, main, io_bind, io_lift.
  destruct (parse_ctm float ctm_file) as [index_df|e1]; cbn [bind];
    [|now intros [= <-]].
  destruct (parse_queries query_file) as [queries_df|e2]; cbn [bind];
    [|now intros [= <-]].
  destruct (perform_kws_search index_df queries_df) as [hits|e3];
    [discriminate|now intros [= <-]].
Qed.

Lemma main_failure_writes_nothing_example :
  main (Fixed.format 2) (Fixed.format 6) (Fixed.format 1) Decimal.float
    bad_number_lines [scenario_A_kw] no_files
  = (no_files, Raise ValueError).
Proof.
  apply (main_failure_writes_nothing (Fixed.format 2) (Fixed.format 6)
           (Fixed.format 1) Decimal.float bad_number_lines [scenario_A_kw]).
  reflexivity.
Defined.

(** X17. When loading and searching succeed but find no hit, [main]
    writes an empty CTM file and then raises [KeyError] in
    [save_hits_to_xml] (the frame of no hits has no [kwid] column); the
    XML file is not written. *)
Theorem main_no_hits_raises (fmt2 fmt6 str_float : Q -> string)
  (float : string -> option Q) (ctm_file : list string)
  (query_file : list KwElement) (fs : Files) :
  load_and_search float ctm_file query_file = Ok [] ->
  main fmt2 fmt6 str_float float ctm_file query_file fs
  = ({| output_ctm := Some []; output_xml := output_xml fs |}, Raise KeyError).
Proof.
  unfold load_and_search, main, io_bind, io_lift.
  destruct (parse_ctm float ctm_file) as [index_df|e1]; cbn [bind];
    [|discriminate].
  destruct (parse_queries query_file) as [queries_df|e2]; cbn [bind];
    [|discriminate].
  intros ->. reflexivity.
Qed.

Lemma main_no_hits_raises_scenario_B :
  main (Fixed.format 2) (Fixed.format 6) (Fixed.format 1) Decimal.float
    scenario_D_lines [mkKw "K1" (Some "go work")] no_files
  = ({| output_ctm := Some []; output_xml := output_xml no_files |},
     Raise KeyError).
Proof.
  apply (main_no_hits_raises (Fixed.format 2) (Fixed.format 6) (Fixed.format 1)
           Decimal.float scenario_D_lines [mkKw "K1" (Some "go work")]).
  reflexivity.
Defined.

(** X18. [main] completes exactly when loading and searching succeed
    with at least one hit; it has then written one CTM line per hit, in
    order, and the XML tree. *)
Theorem main_completes_iff (fmt2 fmt6 str_float : Q -> string)
  (float : string -> option Q) (ctm_file : list string)
  (query_file : list KwElement) (fs fs' : Files) :
  main fmt2 fmt6 str_float float ctm_file query_file fs = (fs', Ok tt) <->
  exists hits root,
    load_and_search float ctm_file query_file = Ok hits
    /\ hits <> []
    /\ xml_tree str_float (hits_frame hits) default_kwlist_filename
         default_language = Ok root
    /\ fs' = {| output_ctm := Some (map (ctm_line fmt2 fmt6) hits);
                output_xml := Some root |}.
Proof.
  unfold load_and_search, main, io_bind, io_lift, save_hits_to_ctm,
    save_hits_to_xml, ctm_lines.
  destruct (parse_ctm float ctm_file) as [index_df|e1]; cbn [bind].
  2:{ split; [discriminate|intros (? & ? & ? & _); discriminate]. }
  destruct (parse_queries query_file) as [queries_df|e2]; cbn [bind].
  2:{ split; [discriminate|intros (? & ? & ? & _); discriminate]. }
  destruct (perform_kws_search index_df queries_df) as [hits|e3].
  2:{ split; [discriminate|intros (? & ? & ? & _); discriminate]. }
  cbn [hits_rows hits_frame output_ctm output_xml].
  destruct hits as [|h hits].
  - cbn. split; [discriminate|intros (? & ? & [= <-] & Hne & _); contradiction].
  - destruct (xml_tree str_float (hits_frame (h :: hits)) default_kwlist_filename
                default_language) as [root|e] eqn:Ex.
    + split.
      * intros [= <-]. exists (h :: hits), root. repeat split; try assumption.
        discriminate.
      * intros (hits' & root' & [= <-] & _ & Hroot & ->).
        rewrite Ex in Hroot. now injection Hroot as <-.
    + exfalso. unfold xml_tree, groupby_kwid in Ex. cbn in Ex. discriminate.
Qed.

(** X19. A [kw] element whose text is white space only stops the run:
    when the transcript loads and every [kw] has text, [main] raises
    [IndexError] if the transcript has a record and [KeyError] if it
    has none, and writes nothing. *)
Theorem main_blank_kwtext_raises (fmt2 fmt6 str_float : Q -> string)
  (float : string -> option Q) (ctm_file : list string)
  (query_file : list KwElement) (index_df : DataFrame) (fs : Files) :
  parse_ctm float ctm_file = Ok index_df ->
  Forall (fun kw => kw_kwtext kw <> None) query_file ->
  Exists (fun kw => exists text, kw_kwtext kw = Some text /\ all_space text = true)
    query_file ->
  main fmt2 fmt6 str_float float ctm_file query_file fs
  = (fs, Raise match rows index_df with [] => KeyError | _ :: _ => IndexError end).
Proof.
  intros Hctm Htext Hblank.
  destruct (parse_queries_loop_total query_file [] Htext) as [queries Hq].
  destruct (parse_queries_loop_ok query_file [] queries Hq) as (new & -> & Hload).
  cbn [app] in Hq.
  apply Exists_exists in Hblank as (kw & Hin & text & Hkw & Hsp).
  destruct (Forall2_in_left _ _ _ kw Hload Hin) as (q & Hqin & _ & text' & Hkw' & _ & _ & _ & Hnil).
  assert (Hwords : words q = []).
  { apply Hnil. rewrite Hkw in Hkw'. now injection Hkw' as <-. }
  unfold main, io_bind, io_lift. rewrite Hctm.
  unfold parse_queries. rewrite Hq.
  rewrite (parse_ctm_frame float ctm_file index_df Hctm).
  rewrite (perform_kws_search_blank (rows index_df) new q Hqin Hwords).
  reflexivity.
Qed.

Lemma main_blank_kwtext_raises_example :
  main (Fixed.format 2) (Fixed.format 6) (Fixed.format 1) Decimal.float
    scenario_D_lines [scenario_A_kw; blank_kw] no_files
  = (no_files,
     Raise match rows (of_records scenario_A_ref) with
           | [] => KeyError
           | _ :: _ => IndexError
           end).
Proof.
  apply (main_blank_kwtext_raises (Fixed.format 2) (Fixed.format 6)
           (Fixed.format 1) Decimal.float scenario_D_lines
           [scenario_A_kw; blank_kw] (of_records scenario_A_ref)).
  - reflexivity.
  - repeat constructor; discriminate.
  - constructor 2. constructor. exists "   ". split; reflexivity.
Defined.


(** * The search on doubles: lemmas *)

(** ** Rounding never makes a NaN *)









(** ** Comparing with 0.5 *)

Lemma pos_compare_cont_antisym (p q : positive) :
  Pos.compare_cont Eq p q = CompOpp (Pos.compare_cont Eq q p).
Proof. exact (Pos.compare_antisym q p). Qed.

(** A double above 0.5 is not at most 0.5. *)
Lemma gt_half_not_le_half (d : F64.double) :
  F64.gt_half d = true -> F64.le_half d = false.
Proof.
  unfold F64.gt_half, F64.le_half, SFltb, SFleb.
  change F64.half with (S754_finite false 4503599627370496 (-53)).
  destruct d as [s|s| |s m e]; cbn [SFcompare]; try discriminate.
  - now destruct s.
  - destruct s; [discriminate|].
    rewrite (Z.compare_antisym (-53) e).
    destruct (-53 ?= e)%Z; cbn [CompOpp]; try discriminate; try reflexivity.
    rewrite (pos_compare_cont_antisym m 4503599627370496).
    now destruct (Pos.compare_cont Eq 4503599627370496 m).
Qed.

(** ** Windows and the two checks *)

Lemma window_length_on_doubles (ref : list F64.WordOccurrence) (i L : nat) :
  (i + L <= List.length ref)%nat -> List.length (F64.window ref i L) = L.
Proof.
  intros H. unfold F64.window. rewrite length_firstn, length_skipn. lia.
Qed.

Lemma window_nth_error_on_doubles (ref : list F64.WordOccurrence) (i L k : nat) :
  (k < L)%nat -> nth_error (F64.window ref i L) k = nth_error ref (i + k).
Proof.
  intros H. unfold F64.window. rewrite nth_error_firstn.
  destruct (Nat.ltb_spec k L); [|lia]. now rewrite nth_error_skipn.
Qed.

Lemma map_word_eq_iff_on_doubles (seg : list F64.WordOccurrence) (ws : list string) :
  List.length seg = List.length ws ->
  (map F64.word seg = ws <->
   forall k r, (k < List.length ws)%nat ->
     nth_error seg k = Some r -> nth_error ws k = Some (F64.word r)).
Proof.
  revert ws. induction seg as [|r0 seg IH]; intros [|w ws] Hlen;
    simpl in Hlen; try discriminate.
  - split; [intros _ k r Hk; simpl in Hk; lia|reflexivity].
  - injection Hlen as Hlen. split.
    + intros Heq k r Hk Hr. simpl in Heq. injection Heq as <- Heq.
      destruct k as [|k]; simpl in *.
      * now injection Hr as <-.
      * apply (proj1 (IH ws Hlen) Heq k r); [lia|assumption].
    + intros H. simpl. f_equal.
      * specialize (H 0%nat r0 ltac:(simpl; lia) eq_refl). simpl in H. congruence.
      * apply (IH ws Hlen). intros k r Hk Hr.
        apply (H (S k) r); [simpl; lia|assumption].
Qed.

(** The check passes exactly when every difference, a NaN taken as 0,
    is at most 0.5. *)
Lemma diffs_ok_iff_on_doubles (x : F64.double) (l : list F64.double) :
  forallb F64.le_half (F64.fillna F64.zero (F64.diff_from x l)) = true <->
  forall k a b, nth_error (x :: l) k = Some a ->
    nth_error (x :: l) (S k) = Some b ->
    F64.le_half (F64.fill F64.zero (Binary64.sub b a)) = true.
Proof.
  revert x. induction l as [|y l IH]; intros x; simpl.
  - split; [|reflexivity]. intros _ k a b _ Hb. now destruct k.
  - rewrite andb_true_iff, IH. split.
    + intros [H0 H] [|k] a b Ha Hb; simpl in *.
      * injection Ha as <-. now injection Hb as <-.
      * now apply (H k).
    + intros H. split.
      * now apply (H 0%nat).
      * intros k a b Ha Hb. now apply (H (S k)).
Qed.

Lemma time_ok_iff_on_doubles (sts : list F64.double) :
  F64.time_ok sts = true <->
  forall k a b, nth_error sts k = Some a -> nth_error sts (S k) = Some b ->
    F64.le_half (F64.fill F64.zero (Binary64.sub b a)) = true.
Proof.
  unfold F64.time_ok, F64.time_diffs. destruct sts as [|x l]; simpl.
  - split; [|reflexivity]. intros _ k a b Ha. now destruct k.
  - apply diffs_ok_iff_on_doubles.
Qed.

(** What the two checks say of a window inside the reference, a NaN
    difference taken as 0. *)
Lemma window_ok_filled_on_doubles (ref : list F64.WordOccurrence) (q : Query)
  (i : nat) :
  (i + List.length (words q) <= List.length ref)%nat ->
  (F64.window_ok q (F64.window ref i (List.length (words q))) = true <->
   F64.tokens_match ref (words q) i
   /\ forall k a b, (S k < List.length (words q))%nat ->
        nth_error ref (i + k) = Some a -> nth_error ref (i + S k) = Some b ->
        F64.le_half (F64.fill F64.zero
                       (Binary64.sub (F64.start_time b) (F64.start_time a))) = true).
Proof.
  intros Hi. set (L := List.length (words q)) in *.
  unfold F64.window_ok.
  rewrite andb_true_iff, list_eqb_true, time_ok_iff_on_doubles.
  rewrite (map_word_eq_iff_on_doubles _ _ (window_length_on_doubles ref i L Hi)).
  fold L. split; intros [Htok Htime]; split.
  - intros k r Hk Hr. apply Htok; [assumption|].
    now rewrite window_nth_error_on_doubles.
  - intros k a b Hk Ha Hb.
    apply (Htime k); rewrite nth_error_map, window_nth_error_on_doubles by lia.
    + now rewrite Ha.
    + now rewrite Hb.
  - intros k r Hk Hr. apply Htok; [assumption|].
    now rewrite <- (window_nth_error_on_doubles ref i L k).
  - intros k a b Ha Hb.
    assert (HSk : (S k < L)%nat).
    { assert (Hb' : nth_error (map F64.start_time (F64.window ref i L)) (S k) <> None)
        by congruence.
      apply nth_error_Some in Hb'.
      rewrite length_map, (window_length_on_doubles ref i L Hi) in Hb'. exact Hb'. }
    rewrite nth_error_map, window_nth_error_on_doubles in Ha, Hb by lia.
    destruct (nth_error ref (i + k)) as [ra|] eqn:Ea; [|discriminate].
    destruct (nth_error ref (i + S k)) as [rb|] eqn:Eb; [|discriminate].
    simpl in Ha, Hb. injection Ha as <-. injection Hb as <-.
    now apply (Htime k).
Qed.


(** ** The loops *)

Section SearchOnDoubles.

Variable mean : list F64.double -> F64.double.

Lemma iloc_last_cons_on_doubles (b : bool) (x : F64.WordOccurrence)
  (l : list F64.WordOccurrence) :
  F64.iloc_last (F64.mkDF b (x :: l)) = Ok (List.last l x).
Proof.
  unfold F64.iloc_last. cbn [F64.rows].
  destruct (rev_cons_last x l) as [t ->]. reflexivity.
Qed.

Lemma iloc_slice_rows_on_doubles (df : F64.DataFrame) (i L : nat) :
  F64.rows (F64.iloc_slice df i (i + L)) = F64.window (F64.rows df) i L.
Proof.
  unfold F64.iloc_slice, F64.window. cbn [F64.rows].
  now replace (i + L - i)%nat with L by lia.
Qed.

Lemma search_window_spec_on_doubles (df : F64.DataFrame) (q : Query)
  (hits : list F64.Hit) (i : nat) :
  F64.has_columns df = true ->
  F64.window (F64.rows df) i (List.length (words q)) <> [] ->
  F64.search_window mean df q hits i =
  Ok (hits ++ if F64.window_ok q (F64.window (F64.rows df) i (List.length (words q)))
              then option_list (F64.hit_at mean (F64.rows df) q i) else []).
Proof.
  intros Hcols Hne. unfold F64.search_window, F64.column, F64.hit_at, F64.window_ok.
  pose proof (iloc_slice_rows_on_doubles df i (List.length (words q))) as Hrows.
  destruct (F64.iloc_slice df i (i + List.length (words q))) as [b seg] eqn:Eseg.
  assert (Hb : b = true).
  { unfold F64.iloc_slice in Eseg. injection Eseg as <- _. exact Hcols. }
  cbn [F64.rows F64.has_columns] in *. subst b. rewrite <- Hrows in *. simpl bind.
  destruct (Py.list_eqb (map F64.word seg) (words q)); simpl;
    [|now rewrite app_nil_r].
  destruct (F64.time_ok (map F64.start_time seg)); simpl; [|now rewrite app_nil_r].
  destruct seg as [|first rest]; [congruence|].
  rewrite iloc_last_cons_on_doubles. reflexivity.
Qed.

Lemma search_query_spec_on_doubles (ref : list F64.WordOccurrence) (q : Query)
  (hits : list F64.Hit) :
  words q <> [] ->
  F64.search_query mean (F64.of_records ref) hits q
  = Ok (hits ++ F64.query_hits mean ref q).
Proof.
  intros Hne. unfold F64.search_query, F64.query_hits, F64.qualifying_offsets.
  rewrite <- flat_map_if. unfold F64.len. cbn [F64.rows F64.of_records].
  apply for_each_append with
    (f := fun i => if F64.window_ok q (F64.window ref i (List.length (words q)))
                   then option_list (F64.hit_at mean ref q i) else []).
  intros i s Hi. apply range_In in Hi.
  assert (HL : (0 < List.length (words q))%nat).
  { destruct (words q); [congruence|simpl; lia]. }
  apply (search_window_spec_on_doubles (F64.of_records ref)).
  - unfold F64.of_records. cbn [F64.has_columns].
    destruct ref; [simpl in Hi; lia|reflexivity].
  - cbn [F64.rows F64.of_records]. intros Hw.
    apply (f_equal (@List.length _)) in Hw.
    rewrite window_length_on_doubles in Hw by lia. simpl in Hw. lia.
Qed.

Lemma perform_kws_search_spec_on_doubles (ref : list F64.WordOccurrence)
  (queries : list Query) :
  Forall (fun q => words q <> []) queries ->
  F64.perform_kws_search mean (F64.of_records ref) queries
  = Ok (flat_map (F64.query_hits mean ref) queries).
Proof.
  intros Hall. unfold F64.perform_kws_search.
  rewrite (for_each_append (F64.search_query mean (F64.of_records ref))
             (F64.query_hits mean ref) queries); [reflexivity|].
  intros q s Hq. apply search_query_spec_on_doubles.
  rewrite Forall_forall in Hall. now apply Hall.
Qed.

Lemma qualifying_offsets_filled_on_doubles (ref : list F64.WordOccurrence)
  (q : Query) (i : nat) :
  In i (F64.qualifying_offsets ref q) <->
  (i + List.length (words q) <= List.length ref)%nat
  /\ F64.window_ok q (F64.window ref i (List.length (words q))) = true.
Proof.
  unfold F64.qualifying_offsets. rewrite filter_In, range_In.
  split; intros [H1 H2]; (split; [lia|exact H2]).
Qed.



End SearchOnDoubles.

(** * The search on doubles: theorems *)



(** At the threshold the rounding of the difference decides.  Start
    times 0.3 and 0.8 are, as doubles, more than 0.5 apart, yet their
    difference rounds to 0.5 and the window is a hit; start times 0.6
    and 1.1 give a difference above 0.5 and no hit. *)
Example threshold_on_doubles :
  (exists h,
     F64.perform_kws_search F64.mean_fold (F64.of_records F64.rounding_ref)
       [scenario_A_query] = Ok [h])
  /\ F64.perform_kws_search F64.mean_fold
       (F64.of_records
          [ F64.mkWord "f1" "1" (Binary64.literal 6 10) (Binary64.literal 2 10)
              "go" (Binary64.literal 9 10);
            F64.mkWord "f1" "1" (Binary64.literal 11 10) (Binary64.literal 2 10)
              "home" (Binary64.literal 8 10) ])
       [scenario_A_query] = Ok [].
Proof. split; [eexists|]; vm_compute; reflexivity. Qed.

(** C2, as the program has it.  Scenario A on doubles: the query file
    entry K1 / "go home" loads as the two-word query, and the search
    returns exactly one hit, with start time 0.0, duration 0.5, decision
    "YES" and score 0.8500000000000001, the sum of 0.9 and 0.8 halved,
    which is the double next above 0.85. *)
Theorem scenario_A_one_hit_on_doubles (mean : list F64.double -> F64.double) :
  mean [Binary64.literal 9 10; Binary64.literal 8 10]
  = Binary64.mean2 (Binary64.literal 9 10) (Binary64.literal 8 10) ->
  parse_queries [scenario_A_kw] = Ok [scenario_A_query]
  /\ exists h,
       F64.perform_kws_search mean (F64.of_records F64.scenario_A_ref)
         [scenario_A_query] = Ok [h]
       /\ F64.hit_start_time h = F64.zero
       /\ F64.hit_duration h = Binary64.literal 5 10
       /\ F64.hit_score h = F64.score_A
       /\ F64.hit_decision h = "YES".
Proof.
  intros Hmean. split; [reflexivity|].
  exists (F64.mkHit "K1" "f1" "1" F64.zero (Binary64.literal 5 10)
            (mean [Binary64.literal 9 10; Binary64.literal 8 10]) "YES").
  split; [vm_compute; reflexivity|].
  cbn [F64.hit_start_time F64.hit_duration F64.hit_score F64.hit_decision].
  rewrite Hmean. repeat split; vm_compute; reflexivity.
Qed.

Lemma scenario_A_one_hit_on_doubles_mean_fold :
  parse_queries [scenario_A_kw] = Ok [scenario_A_query]
  /\ exists h,
       F64.perform_kws_search F64.mean_fold (F64.of_records F64.scenario_A_ref)
         [scenario_A_query] = Ok [h]
       /\ F64.hit_start_time h = F64.zero
       /\ F64.hit_duration h = Binary64.literal 5 10
       /\ F64.hit_score h = F64.score_A
       /\ F64.hit_decision h = "YES".
Proof.
  apply (scenario_A_one_hit_on_doubles F64.mean_fold). vm_compute. reflexivity.
Defined.

(** C2 as stated fails: the score of the hit of scenario A is not the
    double 0.85, neither as a value nor for the comparison [==]. *)
Lemma scenario_A_score_is_not_085 :
  exists h,
    F64.perform_kws_search F64.mean_fold (F64.of_records F64.scenario_A_ref)
      [scenario_A_query] = Ok [h]
    /\ F64.hit_score h <> Binary64.literal 85 100
    /\ SFeqb (F64.hit_score h) (Binary64.literal 85 100) = false.
Proof.
  exists F64.scenario_A_hit. split; [vm_compute; reflexivity|].
  split; [vm_compute; discriminate|vm_compute; reflexivity].
Qed.

(** X5. When every record of the reference starts more than 0.5 after
    its predecessor, the difference taken as the program computes it on
    doubles, a phrase of two or more words has no hit. *)
Theorem wide_gaps_no_hits_on_doubles (mean : list F64.double -> F64.double)
  (ref : list F64.WordOccurrence) (q : Query) :
  (2 <= List.length (words q))%nat ->
  (forall k a b, nth_error ref k = Some a -> nth_error ref (S k) = Some b ->
     F64.gt_half (Binary64.sub (F64.start_time b) (F64.start_time a)) = true) ->
  F64.perform_kws_search mean (F64.of_records ref) [q] = Ok [].
Proof.
  intros HL Hgap.
  assert (Hne : words q <> [])
    by (destruct (words q); [simpl in HL; lia|discriminate]).
  rewrite (perform_kws_search_spec_on_doubles mean ref [q])
    by (constructor; [exact Hne|constructor]).
  cbn [flat_map]. rewrite app_nil_r. f_equal. unfold F64.query_hits.
  rewrite (no_member_nil (F64.qualifying_offsets ref q)); [reflexivity|].
  intros i Hi. apply qualifying_offsets_filled_on_doubles in Hi as [Hle Hok].
  apply (window_ok_filled_on_doubles ref q i Hle) in Hok as [_ Htime].
  destruct (nth_error ref (i + 0)) as [a|] eqn:Ea;
    [|apply nth_error_None in Ea; lia].
  destruct (nth_error ref (i + 1)) as [b|] eqn:Eb;
    [|apply nth_error_None in Eb; lia].
  pose proof (Htime 0%nat a b ltac:(lia) Ea Eb) as Hc.
  rewrite Nat.add_0_r in Ea. rewrite Nat.add_1_r in Eb.
  pose proof (Hgap i a b Ea Eb) as Hg.
  unfold F64.fill in Hc.
  destruct (F64.is_nan (Binary64.sub (F64.start_time b) (F64.start_time a))) eqn:En.
  - destruct (Binary64.sub (F64.start_time b) (F64.start_time a)); discriminate.
  - rewrite (gt_half_not_le_half _ Hg) in Hc. discriminate.
Qed.

Lemma wide_gaps_no_hits_on_doubles_scenario_C :
  F64.perform_kws_search F64.mean_fold (F64.of_records F64.scenario_C_ref)
    [scenario_A_query] = Ok [].
Proof.
  apply (wide_gaps_no_hits_on_doubles F64.mean_fold F64.scenario_C_ref
           scenario_A_query).
  - simpl. lia.
  - intros [|[|k]] a b Ha Hb; simpl in Ha, Hb; try discriminate.
    injection Ha as <-. injection Hb as <-. vm_compute. reflexivity.
Defined.
